(** * Atomium: atomic structures, PDB records and PDB files

    A shallow embedding of [atomium/structures/molecules.py] (the class
    [AtomicStructure]) together with the collaborators it calls, and of the
    two classes that the test-suite exercises but whose modules are not part
    of the sources at hand ([PdbRecord] and [Pdb]).

    Python objects live in a heap indexed by locations; a Python set is a
    heap object of its own, so that two names for one set, or a copy of a
    set, are told apart.  Methods are computations in a state-and-exception
    monad over that heap: a raised exception keeps the heap as it was at the
    point of the [raise]. *)

From Stdlib Require Import ZArith String Ascii List Lia DecimalString DecimalZ.
From Corelib Require Import PrimFloat.
From stdpp Require Import gmap strings list fin_sets.

Open Scope Z_scope.
Open Scope string_scope.
Open Scope list_scope.

(** ** The fragment of Python the sources rely on *)

Module Py.

Definition loc := positive.

(** Values that are passed around: [None], integers, strings, and
    references to heap objects (compared by identity). *)
Inductive value : Type :=
| VNone
| VInt (n : Z)
| VStr (s : string)
| VRef (l : loc).

#[global] Instance value_eq_dec : EqDecision value.
Proof. solve_decision. Defined.

#[global] Instance value_countable : Countable value.
Proof.
  apply (inj_countable'
    (λ v, match v with
          | VNone => inl ()
          | VInt n => inr (inl n)
          | VStr s => inr (inr (inl s))
          | VRef l => inr (inr (inr l))
          end)
    (λ c, match c with
          | inl _ => VNone
          | inr (inl n) => VInt n
          | inr (inr (inl s)) => VStr s
          | inr (inr (inr l)) => VRef l
          end)).
  by intros [].
Defined.

(** Exceptions: the class, and the value the message is formatted with. *)
Inductive exn_class : Type :=
| TypeError | ValueError | KeyError | IndexError | AttributeError.

Record exn : Type := Exn { exn_type : exn_class; exn_arg : value }.

#[global] Instance exn_class_eq_dec : EqDecision exn_class.
Proof. solve_decision. Defined.

#[global] Instance exn_eq_dec : EqDecision exn.
Proof. solve_decision. Defined.

(** A computation over a heap of type [H]: it returns a result or raises,
    and in both cases hands back the heap it has reached. *)
Definition M (H A : Type) : Type := H → (exn + A) * H.

Definition ret {H A} (a : A) : M H A := λ h, (inr a, h).

Definition raise {H A} (c : exn_class) (v : value) : M H A :=
  λ h, (inl (Exn c v), h).

Definition bind {H A B} (m : M H A) (k : A → M H B) : M H B :=
  λ h, match m h with
       | (inr a, h') => k a h'
       | (inl e, h') => (inl e, h')
       end.

(** A pure step that may fail, run inside a computation. *)
Definition lift {H A} (r : exn + A) : M H A := λ h, (r, h).

Definition gets {H A} (f : H → A) : M H A := λ h, (inr (f h), h).

End Py.

Export Py.

Notation "'let!' x ':=' m 'in' k" := (bind m (λ x, k))
  (at level 10, x name, m at level 100, k at level 200).
Notation "m ';;' k" := (bind m (λ _, k))
  (at level 100, k at level 200, right associativity).

(** The list comprehension [[f x for x in xs]]. *)
Fixpoint comprehension {H A B} (f : A → M H B) (xs : list A) : M H (list B) :=
  match xs with
  | [] => ret []
  | x :: xs' =>
      let! y := f x in
      let! ys := comprehension f xs' in
      ret (y :: ys)
  end.

(** [filter(p, xs)], consumed to the end. *)
Fixpoint filter_ {H A} (p : A → M H bool) (xs : list A) : M H (list A) :=
  match xs with
  | [] => ret []
  | x :: xs' =>
      let! keep := p x in
      let! rest := filter_ p xs' in
      ret (if keep then x :: rest else rest)
  end.

(** ** Numbers, and the two imports of [molecules.py] *)

(** Coordinates and masses are Python numbers over which this module does no
    arithmetic of its own, apart from [sum], which starts at [0] and adds. *)
Class Number (num : Type) : Type := {
  zero : num;
  add : num → num → num
}.

Definition point (num : Type) : Type := (num * num * num)%type.

(** [from geometrica import translate, rotate]: an external library.  Both
    functions map the point cloud of the objects they are given to a new
    list of points, or raise. *)
Class Geometrica (num : Type) : Type := {
  geo_translate : list (point num) → num → num → num → exn + list (point num);
  geo_rotate : list (point num) → value → num → exn + list (point num)
}.

(** The table of relative atomic masses that [Atom.mass] looks elements up
    in; it is a constant of [atoms.py], which is not among the sources. *)
Class PeriodicTable (num : Type) : Type :=
  PERIODIC_TABLE : gmap string num.

(** ** Atoms and the heap *)

Module Atom.
Section Atom.
Context {num : Type} `{!Number num, !PeriodicTable num}.

(** Modelled from the spec: the class [Atom] of [atoms.py], which is not
    among the sources.  Its fields are those [molecules.py] touches: the
    element symbol read by [element()], and the coordinates [_x], [_y],
    [_z] that [translate] and [rotate] assign. *)
Record t : Type := Make { _element : string; _x : num; _y : num; _z : num }.

(** Heap objects: atoms and sets of values. *)
Inductive obj : Type :=
| OAtom (a : t)
| OSet (s : gset value).

Definition get (h : gmap loc obj) (v : value) : option t :=
  match v with
  | VRef l => match h !! l with Some (OAtom a) => Some a | _ => None end
  | _ => None
  end.

(** [isinstance(v, Atom)] *)
Definition isinstance (h : gmap loc obj) (v : value) : bool :=
  match get h v with Some _ => true | None => false end.

(** A method of [Atom] called on [v]: an [AttributeError] unless [v] is an
    atom. *)
Definition method {A} (f : t → A) (v : value) : M (gmap loc obj) A :=
  λ h, match get h v with
       | Some a => (inr (f a), h)
       | None => (inl (Exn AttributeError v), h)
       end.

(** Modelled from the spec: [Atom.element()] returns the element symbol. *)
Definition element : value → M (gmap loc obj) string := method _element.

(** Modelled from the spec: [Atom.mass()] looks the element up in the table
    of relative atomic masses; an element that is not in the table has
    mass zero. *)
Definition mass_of (a : t) : num := default zero (PERIODIC_TABLE !! _element a).

Definition mass : value → M (gmap loc obj) num := method mass_of.

(** The coordinates [geometrica] reads off an atom. *)
Definition location_of (a : t) : point num := (_x a, _y a, _z a).

Definition location : value → M (gmap loc obj) (point num) := method location_of.

(** [atom._x, atom._y, atom._z = p] *)
Definition set_location (v : value) (p : point num) : M (gmap loc obj) unit :=
  λ h, match v, get h v with
       | VRef l, Some a =>
           let '(x, y, z) := p in
           (inr tt, <[l := OAtom (Make (_element a) x y z)]> h)
       | _, _ => (inl (Exn AttributeError v), h)
       end.

End Atom.
End Atom.

Arguments Atom.t : clear implicits.
Arguments Atom.obj : clear implicits.

Abbreviation heap num := (gmap loc (Atom.obj num)).

(** ** Built-in operations on heap objects *)

Section Builtins.
Context {num : Type}.

(** A fresh object. *)
Definition alloc (o : Atom.obj num) : M (heap num) loc :=
  λ h, let l := fresh (dom h) in (inr l, <[l := o]> h).

(** The set object a value refers to; anything else is not a set. *)
Definition as_set (v : value) : M (heap num) (gset value) :=
  λ h, match v with
       | VRef l =>
           match h !! l with
           | Some (Atom.OSet s) => (inr s, h)
           | _ => (inl (Exn TypeError v), h)
           end
       | _ => (inl (Exn TypeError v), h)
       end.

(** [list(s)], and the order [for x in s] visits a set in. *)
Definition list_ (s : loc) : M (heap num) (list value) :=
  let! members := as_set (VRef s) in
  ret (elements members).

(** [set(xs)] for a sequence [xs]: a new set object. *)
Definition set_ (xs : list value) : M (heap num) loc :=
  alloc (Atom.OSet (list_to_set xs)).

(** [s.add(v)] *)
Definition set_add (s : loc) (v : value) : M (heap num) unit :=
  let! members := as_set (VRef s) in
  λ h, (inr tt, <[s := Atom.OSet ({[v]} ∪ members)]> h).

(** [s.remove(v)]: a [KeyError] when [v] is not a member. *)
Definition set_remove (s : loc) (v : value) : M (heap num) unit :=
  let! members := as_set (VRef s) in
  if decide (v ∈ members)
  then λ h, (inr tt, <[s := Atom.OSet (members ∖ {[v]})]> h)
  else raise KeyError v.

(** [v in s] *)
Definition set_contains (s : loc) (v : value) : M (heap num) bool :=
  let! members := as_set (VRef s) in
  ret (bool_decide (v ∈ members)).

(** Truth value of [v] in [if v:]: [None], [0], the empty string and the
    empty set are false. *)
Definition truth (h : heap num) (v : value) : bool :=
  match v with
  | VNone => false
  | VInt n => negb (n =? 0)%Z
  | VStr s => negb (String.eqb s "")
  | VRef l =>
      match h !! l with
      | Some (Atom.OSet s) => negb (bool_decide (s = ∅))
      | _ => true
      end
  end.

Definition truthy (v : value) : M (heap num) bool := gets (λ h, truth h v).

(** [len(s)] *)
Definition len_ (s : loc) : M (heap num) Z :=
  let! members := as_set (VRef s) in
  ret (Z.of_nat (size members)).

(** [str(n)] for an integer [n]: its decimal digits, after a minus sign when
    it is negative. *)
Definition str_ (n : Z) : string := NilEmpty.string_of_int (Z.to_int n).

(** [Counter(xs)]: the dictionary that maps each item of [xs] to the number
    of times it occurs; items are counted one by one, from the left. *)
Definition Counter (xs : list string) : gmap string Z :=
  foldl (λ counts x, <[x := default 0 (counts !! x) + 1]> counts) ∅ xs.

(** [counts[x]] on a [Counter]: zero for a key that is missing. *)
Definition count_of (counts : gmap string Z) (x : string) : Z :=
  default 0 (counts !! x).

(** Binding of the arguments of a call to a method [def f(self, name=None)]:
    at most one positional argument, no keyword but [name], and not both. *)
Definition bind_optional (name : string) (args : list value)
    (kwargs : list (string * value)) : exn + value :=
  match filter (λ kv, kv.1 ≠ name) kwargs with
  | (k, _) :: _ => inl (Exn TypeError (VStr k))
  | [] =>
      match args, kwargs with
      | [], [] => inr VNone
      | [], (_, v) :: _ => inr v
      | [v], [] => inr v
      | [_], _ :: _ => inl (Exn TypeError (VStr name))
      | _ :: _ :: _, _ => inl (Exn TypeError (VInt (Z.of_nat (length args))))
      end
  end.

End Builtins.

(** ** [class AtomicStructure] *)

Module AtomicStructure.
Section AtomicStructure.
Context {num : Type} `{!Number num, !PeriodicTable num, !Geometrica num}.

(** The one attribute of an instance: a reference to its set of atoms. *)
Record t : Type := Make { _atoms : loc }.

(** The constructor, called with the tuple [atoms] of its arguments. *)
Definition __init__ (atoms : list value) : M (heap num) t :=
  let! all_atoms := gets (λ h, forallb (Atom.isinstance h) atoms) in
  if negb all_atoms then
    let! non_atoms := gets (λ h, filter (λ a, Atom.isinstance h a = false) atoms) in
    match non_atoms with
    | first :: _ => raise TypeError first
    | [] => raise IndexError (VInt 0)
    end
  else
    let! s := set_ atoms in
    ret (Make s).

(** [repr(self)] *)
Definition __repr__ (self : t) : M (heap num) string :=
  let! n := len_ (_atoms self) in
  ret ("<AtomicStructure (" ++ str_ n ++ " atoms)>")%string.

(** [member in self] *)
Definition __contains__ (self : t) (member : value) : M (heap num) bool :=
  set_contains (_atoms self) member.

(** [self.atoms(element)], the parameter already bound. *)
Definition atoms (self : t) (element : value) : M (heap num) loc :=
  let! members := list_ (_atoms self) in
  let! atoms := set_ members in
  let! filtered := truthy element in
  if filtered then
    let! members := list_ atoms in
    let! kept := filter_ (λ a, let! e := Atom.element a in
                               ret (bool_decide (VStr e = element))) members in
    set_ kept
  else ret atoms.

(** A call of [self.atoms] with positional arguments [args] and keyword
    arguments [kwargs]. *)
Definition call_atoms (self : t) (args : list value)
    (kwargs : list (string * value)) : M (heap num) loc :=
  let! element := lift (bind_optional "element" args kwargs) in
  atoms self element.

(** [self.atom(...)], called with positional arguments [args] and keyword
    arguments [kwargs]: the first atom the loop over the set comes to, or
    [None] when the loop has nothing to visit. *)
Definition atom (self : t) (args : list value) (kwargs : list (string * value))
    : M (heap num) value :=
  let! atoms := call_atoms self args kwargs in
  let! members := list_ atoms in
  ret match members with
      | atom :: _ => atom
      | [] => VNone
      end.

(** [self.add_atom(atom)] *)
Definition add_atom (self : t) (atom : value) : M (heap num) unit :=
  let! is_atom := gets (λ h, Atom.isinstance h atom) in
  if negb is_atom then raise TypeError atom
  else set_add (_atoms self) atom.

(** [self.remove_atom(atom)] *)
Definition remove_atom (self : t) (atom : value) : M (heap num) unit :=
  set_remove (_atoms self) atom.

(** [sum(xs)] *)
Definition sum (xs : list num) : num := foldl add zero xs.

(** [self.mass()] *)
Definition mass (self : t) : M (heap num) num :=
  let! members := list_ (_atoms self) in
  let! masses := comprehension Atom.mass members in
  ret (sum masses).

(** [self.formula()] *)
Definition formula (self : t) : M (heap num) (gmap string Z) :=
  let! members := list_ (_atoms self) in
  let! elements := comprehension Atom.element members in
  ret (Counter elements).

(** [for index, atom in enumerate(atoms): atom._x, atom._y, atom._z =
    points[index]], from position [index] on. *)
Fixpoint write_back (index : nat) (atoms : list value) (points : list (point num))
    : M (heap num) unit :=
  match atoms with
  | [] => ret tt
  | atom :: rest =>
      match points !! index with
      | None => raise IndexError (VInt (Z.of_nat index))
      | Some p => Atom.set_location atom p ;; write_back (S index) rest points
      end
  end.

(** [self.translate(dx, dy, dz)] *)
Definition translate (self : t) (dx dy dz : num) : M (heap num) unit :=
  let! atoms := list_ (_atoms self) in
  let! cloud := comprehension Atom.location atoms in
  let! points := lift (geo_translate cloud dx dy dz) in
  write_back 0 atoms points.

(** [self.rotate(axis, angle)] *)
Definition rotate (self : t) (axis : value) (angle : num) : M (heap num) unit :=
  let! atoms := list_ (_atoms self) in
  let! cloud := comprehension Atom.location atoms in
  let! points := lift (geo_rotate cloud axis angle) in
  write_back 0 atoms points.

(** The heap [h] holds the structure [self] with the set [S] of atoms. *)
Definition holds (h : heap num) (self : t) (S : gset value) : Prop :=
  h !! _atoms self = Some (Atom.OSet S) ∧
  ∀ a, a ∈ S → Atom.isinstance h a = true.

End AtomicStructure.
End AtomicStructure.

(** A value of the heap [h]: a reference is to an object that exists. *)
Definition defined {num} (h : heap num) (v : value) : Prop :=
  match v with
  | VRef l => is_Some (h !! l)
  | _ => True
  end.

(** [a.element() == element], for a member [a] of a structure. *)
Definition has_element {num} (h : heap num) (element a : value) : bool :=
  match Atom.get h a with
  | Some atom => bool_decide (VStr (Atom._element atom) = element)
  | None => false
  end.

(** The members of [S] that [atoms(element)] selects. *)
Definition selected {num} (h : heap num) (element : value) (S : gset value)
    : gset value :=
  if truth h element then filter (λ a, has_element h element a) S else S.

(** The mass [a.mass()] returns for a member [a] of a structure. *)
Definition mass_in {num} `{!Number num, !PeriodicTable num}
    (h : heap num) (a : value) : num :=
  from_option Atom.mass_of zero (Atom.get h a).

(** The masses of the members of [S], summed in the order the set is
    visited in. *)
Definition total {num} `{!Number num, !PeriodicTable num}
    (h : heap num) (S : gset value) : num :=
  AtomicStructure.sum (map (mass_in h) (elements S)).

(** The groups [Gs] partition the set [S]: together they make up [S], and
    no two of them share a member. *)
Definition partitions (Gs : list (gset value)) (S : gset value) : Prop :=
  ⋃ Gs = S ∧
  ∀ i j G G', i ≠ j → Gs !! i = Some G → Gs !! j = Some G' → G ## G'.

(** The axes the docstring of [rotate] allows. *)
Definition principal_axes : list value := [VStr "x"; VStr "y"; VStr "z"].

(** The geometry library rejects every other axis with a [ValueError]. *)
Definition checks_axis {num} `{!Geometrica num} : Prop :=
  ∀ cloud axis angle,
    axis ∉ principal_axes →
    ∃ v, geo_rotate cloud axis angle = inl (Exn ValueError v).

(** The element [a.element()] returns for a member [a] of a structure. *)
Definition element_in {num} (h : heap num) (a : value) : string :=
  from_option Atom._element "" (Atom.get h a).

(** [sum(counts.values())] *)
Definition sum_values (counts : gmap string Z) : Z :=
  map_fold (λ _ n acc, n + acc) 0 counts.

(** The atom [atom] once [atom._x, atom._y, atom._z = p] has run. *)
Definition placed {num} (atom : Atom.t num) (p : point num) : Atom.t num :=
  Atom.Make (Atom._element atom) p.1.1 p.1.2 p.2.

(** The point cloud of a structure: the coordinates of its atoms, in the
    order the set is visited in. *)
Definition cloud_of {num} (h : heap num) (S : gset value)
    (cloud : list (point num)) : Prop :=
  Forall2 (λ a p, ∃ atom, Atom.get h a = Some atom ∧ p = Atom.location_of atom)
          (elements S) cloud.

(** The sum of a list of numbers as it is written on paper,
    [x1 + (x2 + (... + 0))], with no reference to [sum] above. *)
Definition series {num} `{!Number num} (xs : list num) : num :=
  foldr add zero xs.

(** The point [p] moved by the deltas [dx], [dy], [dz]. *)
Definition shifted {num} `{!Number num} (dx dy dz : num) (p : point num)
    : point num :=
  (add p.1.1 dx, add p.1.2 dy, add p.2 dz).

(** The geometry library translates a point cloud by adding the deltas to
    the coordinates of every point. *)
Definition adds_deltas {num} `{!Number num, !Geometrica num} : Prop :=
  ∀ cloud dx dy dz,
    geo_translate cloud dx dy dz = inr (map (shifted dx dy dz) cloud).

(** Adding [d] and then [back] to the coordinate [x] gives [x] again. *)
Definition undoes {num} `{!Number num} (d back x : num) : Prop :=
  add (add x d) back = x.

(** What a caller may do to a set it has been handed. *)
Inductive set_op : Type :=
| Add (v : value)
| Remove (v : value).

Definition apply_op {num} (s : loc) (op : set_op) : M (heap num) unit :=
  match op with
  | Add v => set_add s v
  | Remove v => set_remove s v
  end.

Fixpoint mutate {num} (s : loc) (ops : list set_op) : M (heap num) unit :=
  match ops with
  | [] => ret tt
  | op :: ops' => apply_op s op ;; mutate s ops'
  end.

(** ** [class PdbRecord] *)

Module PdbRecord.

Record t : Type := Make {
  number : Z;
  name : string;
  text : string;
  contents : string
}.

Fixpoint spaces (n : nat) : string :=
  match n with
  | O => ""
  | S n' => String " " (spaces n')
  end.

(** [s.ljust(width)] *)
Definition ljust (width : nat) (s : string) : string :=
  s ++ spaces (width - String.length s).

(** [s[start:stop]] for non-negative bounds *)
Definition slice (start stop : nat) (s : string) : string :=
  substring start (stop - start) s.

(** [s.rstrip(" ")] *)
Fixpoint rstrip (s : string) : string :=
  match s with
  | "" => ""
  | String c s' =>
      match rstrip s' with
      | "" => if Ascii.eqb c " " then "" else String c ""
      | r => String c r
      end
  end.

(** Modelled from the spec: the constructor of [PdbRecord], whose module
    ([parsers/pdb/pdb_file.py]) is not among the sources.  The line is
    right-padded with spaces to 80 characters and cut at 80; the name is
    the first 6 characters without trailing spaces; the contents are
    columns 7 to 80; the number is the one given. *)
Definition __init__ (line : string) (number : Z) : t :=
  let text := slice 0 80 (ljust 80 line) in
  Make number (rstrip (slice 0 6 text)) text (slice 6 80 text).

End PdbRecord.

(** ** [class Pdb] *)

Module Pdb.

Record t : Type := Make {
  _models : list value;
  _code : value;
  _deposition_date : option (Z * Z * Z);
  _title : value
}.

(** [Pdb()] *)
Definition __init__ : t := Make [] VNone None VNone.

Definition is_digit (c : ascii) : bool :=
  (48 <=? nat_of_ascii c)%nat && (nat_of_ascii c <=? 57)%nat.

(** Exactly four characters, the first one a digit. *)
Definition valid_code (s : string) : bool :=
  match s with
  | String c _ => (String.length s =? 4)%nat && is_digit c
  | "" => false
  end.

(** Modelled from the spec: the two halves of the accessor [Pdb.code],
    whose module ([files/pdb.py]) is not among the sources.  Reading
    returns the stored code; writing checks that the new code is a string,
    then that it has the form of a code, then stores it. *)
Definition code : M t value := gets _code.

Definition set_code (code : value) : M t unit :=
  match code with
  | VStr s =>
      if valid_code s
      then λ self, (inr tt, Make (_models self) code (_deposition_date self) (_title self))
      else raise ValueError code
  | _ => raise TypeError code
  end.

End Pdb.

(** ** A small world to run the definitions in *)

Module World.

(** Masses in thousandths of a dalton, so that integers will do. *)
#[export] Instance Z_number : Number Z := {| zero := 0; add := Z.add |}.

#[export] Instance table : PeriodicTable Z :=
  ({[ "H" := 1008; "C" := 12011; "O" := 15999 ]} : gmap string Z).

(** A right-handed quarter turn about a principal axis. *)
Definition quarter_turn (axis : value) (p : point Z) : point Z :=
  let '(x, y, z) := p in
  if bool_decide (axis = VStr "x") then (x, - z, y)
  else if bool_decide (axis = VStr "y") then (z, y, - x)
  else (- y, x, z).

(** Modelled from the spec: the geometry library on an integer grid.
    Translation adds the deltas to every point.  Rotation accepts the axes
    [x], [y] and [z] only and raises [ValueError] for any other value; on
    the grid it turns by the whole quarter turns contained in the angle
    (given in degrees). *)
#[export] Instance grid : Geometrica Z := {|
  geo_translate cloud dx dy dz :=
    inr (map (λ '(x, y, z), (x + dx, y + dy, z + dz)) cloud);
  geo_rotate cloud axis angle :=
    if bool_decide (axis ∈ principal_axes)
    then inr (map (Nat.iter (Z.to_nat ((angle / 90) `mod` 4)) (quarter_turn axis)) cloud)
    else inl (Exn ValueError axis)
|}.

Definition carbon : value := VRef 1%positive.
Definition hydrogen : value := VRef 2%positive.
Definition mysterium : value := VRef 3%positive.

(** Three atoms, and nothing else. *)
Definition lab : heap Z :=
  {[ 1%positive := Atom.OAtom (Atom.Make "C" 0 0 0);
     2%positive := Atom.OAtom (Atom.Make "H" 1 0 0);
     3%positive := Atom.OAtom (Atom.Make "My" 0 1 0) ]}.

(** The same heap once [AtomicStructure(carbon, hydrogen, mysterium)] has
    run in it, and the structure it has built. *)
Definition molecule : AtomicStructure.t := AtomicStructure.Make 4%positive.

Definition members : gset value := {[ carbon; hydrogen; mysterium ]}.

Definition bench : heap Z := <[4%positive := Atom.OSet members]> lab.

(** Two more structures in that heap, which split the atoms of the first
    between them. *)
Definition organic : AtomicStructure.t := AtomicStructure.Make 5%positive.
Definition rest : AtomicStructure.t := AtomicStructure.Make 6%positive.

Definition shelf : heap Z :=
  <[6%positive := Atom.OSet {[ mysterium ]}]>
    (<[5%positive := Atom.OSet {[ carbon; hydrogen ]}]> bench).

Definition parts : list (AtomicStructure.t * gset value) :=
  [(organic, {[ carbon; hydrogen ]}); (rest, {[ mysterium ]})].

(** A structure without atoms, in the heap of the three atoms. *)
Definition nothing : AtomicStructure.t := AtomicStructure.Make 4%positive.

Definition vacant : heap Z := <[4%positive := Atom.OSet ∅]> lab.

(** A geometry library that gives back one point only, however many it is
    given; it rotates as the grid does. *)
Definition stingy : Geometrica Z := {|
  geo_translate cloud dx dy dz :=
    inr (take 1 (map (λ '(x, y, z), (x + dx, y + dy, z + dz)) cloud));
  geo_rotate := geo_rotate
|}.

End World.

(** ** A world in binary64 *)

(** The decimal numerals below stand for the nearest binary64 numbers. *)
Set Warnings "-inexact-float".

Module Binary64.

(** Python floats: binary64 numbers, added with rounding to nearest. *)
#[export] Instance float_number : Number float :=
  {| zero := 0%float; add := PrimFloat.add |}.

(** The relative atomic masses of hydrogen and carbon. *)
#[export] Instance table : PeriodicTable float :=
  ({[ "H" := 1.0079%float; "C" := 12.0107%float ]} : gmap string float).

(** Modelled from the spec: the geometry library in binary64.  Translation
    adds the deltas to every point.  Rotation needs sines and cosines,
    which are not to hand here: this stand-in is for translations only and
    turns every rotation down. *)
#[export] Instance plane : Geometrica float := {|
  geo_translate cloud dx dy dz := inr (map (shifted dx dy dz) cloud);
  geo_rotate cloud axis angle := inl (Exn ValueError axis)
|}.

Definition carbon : value := VRef 1%positive.
Definition hydrogen1 : value := VRef 2%positive.
Definition hydrogen2 : value := VRef 3%positive.

(** A carbon atom at (0.1, 0.3, 1) and two hydrogen atoms; a structure of
    the three, and two structures that split them between them. *)
Definition methylene : AtomicStructure.t := AtomicStructure.Make 4%positive.
Definition methine : AtomicStructure.t := AtomicStructure.Make 5%positive.
Definition lone : AtomicStructure.t := AtomicStructure.Make 6%positive.

Definition slide : heap float :=
  {[ 1%positive := Atom.OAtom (Atom.Make "C" 0.1%float 0.3%float 1%float);
     2%positive := Atom.OAtom (Atom.Make "H" 1%float 0%float 0%float);
     3%positive := Atom.OAtom (Atom.Make "H" 0%float 1%float 0%float);
     4%positive := Atom.OSet {[ carbon; hydrogen1; hydrogen2 ]};
     5%positive := Atom.OSet {[ carbon; hydrogen1 ]};
     6%positive := Atom.OSet {[ hydrogen2 ]} ]}.

End Binary64.

Set Warnings "inexact-float".

(** * Properties *)

(** ** Sequencing *)

Section Sequencing.
Context {H A B : Type}.

Lemma bind_inr (m : M H A) (k : A → M H B) h a h' :
  m h = (inr a, h') → bind m k h = k a h'.
Proof. intros Hm. unfold bind. by rewrite Hm. Qed.

Lemma bind_inl (m : M H A) (k : A → M H B) h e h' :
  m h = (inl e, h') → bind m k h = (inl e, h').
Proof. intros Hm. unfold bind. by rewrite Hm. Qed.

End Sequencing.

(** ** The heap and the built-in operations *)

Section HeapFacts.
Context {num : Type}.
Implicit Types (h : heap num) (v : value) (l : loc) (S : gset value).

Lemma fresh_unused h : h !! fresh (dom h) = None.
Proof. apply not_elem_of_dom, is_fresh. Qed.

Lemma alloc_spec (o : Atom.obj num) h :
  alloc o h = (inr (fresh (dom h)), <[fresh (dom h) := o]> h).
Proof. reflexivity. Qed.

Lemma as_set_spec h l S :
  h !! l = Some (Atom.OSet S) → as_set (VRef l) h = (inr S, h).
Proof. intros Hl. unfold as_set. by rewrite Hl. Qed.

Lemma list_spec h l S :
  h !! l = Some (Atom.OSet S) → list_ l h = (inr (elements S), h).
Proof. intros Hl. unfold list_, bind. by rewrite (as_set_spec _ _ _ Hl). Qed.

(** An atom is still the same atom after a fresh object has been added. *)
Lemma get_alloc h (o : Atom.obj num) v a :
  Atom.get h v = Some a → Atom.get (<[fresh (dom h) := o]> h) v = Some a.
Proof.
  destruct v as [| | |l0]; simpl; try discriminate.
  intros Hget. destruct (decide (fresh (dom h) = l0)) as [<-|Hne].
  - by rewrite fresh_unused in Hget.
  - by rewrite lookup_insert_ne.
Qed.

Lemma isinstance_get h v :
  Atom.isinstance h v = true ↔ is_Some (Atom.get h v).
Proof.
  unfold Atom.isinstance. destruct (Atom.get h v) as [a|].
  - split; [by exists a | done].
  - split; [done | by intros [a Ha]].
Qed.

Lemma isinstance_alloc h (o : Atom.obj num) v :
  Atom.isinstance h v = true →
  Atom.isinstance (<[fresh (dom h) := o]> h) v = true.
Proof.
  rewrite !isinstance_get. intros [a Ha]. exists a. by apply get_alloc.
Qed.

(** Replacing a set object by a set object changes no atom. *)
Lemma get_set_update h l S S' v :
  h !! l = Some (Atom.OSet S) →
  Atom.get (<[l := Atom.OSet S']> h) v = Atom.get h v.
Proof.
  intros Hl. destruct v as [| | |l0]; simpl; try done.
  destruct (decide (l = l0)) as [<-|Hne].
  - by rewrite lookup_insert_eq, Hl.
  - by rewrite lookup_insert_ne.
Qed.

End HeapFacts.

(** ** Construction *)

Section Construction.
Context {num : Type}.
Implicit Types (h : heap num) (v : value) (S : gset value).

Lemma init_all_atoms h (atoms : list value) :
  forallb (Atom.isinstance h) atoms = true →
  AtomicStructure.__init__ atoms h =
    (inr (AtomicStructure.Make (fresh (dom h))),
     <[fresh (dom h) := Atom.OSet (list_to_set atoms)]> h).
Proof.
  intros Hall. unfold AtomicStructure.__init__, bind, gets.
  rewrite Hall. reflexivity.
Qed.

Lemma init_some_non_atom h (atoms : list value) :
  forallb (Atom.isinstance h) atoms = false →
  ∃ first rest,
    filter (λ a, Atom.isinstance h a = false) atoms = first :: rest ∧
    AtomicStructure.__init__ atoms h = (inl (Exn TypeError first), h).
Proof.
  intros Hall. unfold AtomicStructure.__init__, bind, gets. rewrite Hall. simpl.
  destruct (filter _ atoms) as [|first rest] eqn:Hf.
  - exfalso. apply not_true_iff_false in Hall. apply Hall.
    apply forallb_forall. intros a Ha%list_elem_of_In.
    destruct (Atom.isinstance h a) eqn:Hi; [done|].
    assert (a ∈ filter (λ a, Atom.isinstance h a = false) atoms) as Hin
      by (by apply list_elem_of_filter).
    rewrite Hf in Hin. by apply not_elem_of_nil in Hin.
  - by exists first, rest.
Qed.

(** C1 (as the code has it): the constructor accepts an empty argument
    list.  Whatever the heap, it returns a structure whose set of atoms is
    a new, empty set object, and changes nothing else; no exception of any
    kind is raised. *)
Theorem init_no_atoms_succeeds h :
  ∃ self h',
    AtomicStructure.__init__ [] h = (inr self, h') ∧
    h !! AtomicStructure._atoms self = None ∧
    h' = <[AtomicStructure._atoms self := Atom.OSet ∅]> h ∧
    AtomicStructure.holds h' self ∅.
Proof.
  eexists _, _. split; [by apply init_all_atoms|]. simpl.
  split; [apply fresh_unused|]. split; [done|].
  split; [by rewrite lookup_insert_eq | set_solver].
Qed.

(** C3: if some argument of the constructor is not an atom, the constructor
    raises [TypeError], formatted with the first argument that is not an
    atom, however many of the other arguments are atoms; the heap is left
    as it was, so no set of atoms, not even of the valid arguments, has
    come to exist. *)
Theorem init_rejects_any_non_atom h (atoms : list value) v :
  v ∈ atoms →
  Atom.isinstance h v = false →
  ∃ first,
    first ∈ atoms ∧ Atom.isinstance h first = false ∧
    AtomicStructure.__init__ atoms h = (inl (Exn TypeError first), h).
Proof.
  intros Hin Hv.
  destruct (init_some_non_atom h atoms) as (first & rest & Hf & Hinit).
  - apply not_true_iff_false. intros Hall.
    rewrite forallb_forall in Hall.
    apply list_elem_of_In, Hall in Hin. congruence.
  - exists first.
    assert (first ∈ filter (λ a, Atom.isinstance h a = false) atoms) as Hfirst
      by (rewrite Hf; left).
    apply list_elem_of_filter in Hfirst as [? ?]. done.
Qed.

End Construction.

(** ** Retrieval of atoms *)

Section Retrieval.
Context {num : Type}.
Implicit Types (h : heap num) (v : value) (S : gset value).

Lemma truth_alloc h (o : Atom.obj num) v :
  defined h v → truth (<[fresh (dom h) := o]> h) v = truth h v.
Proof.
  destruct v as [| | |l]; simpl; try done.
  intros [o' Ho']. rewrite lookup_insert_ne; [done|].
  intros <-. by rewrite fresh_unused in Ho'.
Qed.

Lemma has_element_alloc h (o : Atom.obj num) element a :
  Atom.isinstance h a = true →
  has_element (<[fresh (dom h) := o]> h) element a = has_element h element a.
Proof.
  intros [atom Ha]%isinstance_get. unfold has_element.
  by rewrite (get_alloc _ o _ _ Ha), Ha.
Qed.

(** The loop of [filter] over a list of atoms: the heap is only read. *)
Lemma filter_by_element h element (xs : list value) :
  Forall (λ a, Atom.isinstance h a = true) xs →
  filter_ (λ a, let! e := Atom.element a in
                ret (bool_decide (VStr e = element))) xs h
  = (inr (filter (λ a, has_element h element a) xs), h).
Proof.
  induction 1 as [|a xs Ha _ IH]; [done|].
  apply isinstance_get in Ha as [atom Hatom].
  cbn [filter_].
  erewrite bind_inr; cycle 1.
  { erewrite bind_inr; [reflexivity|].
    unfold Atom.element, Atom.method. by rewrite Hatom. }
  erewrite bind_inr by apply IH. unfold ret.
  assert (has_element h element a
          = bool_decide (VStr (Atom._element atom) = element)) as Hhas
    by (unfold has_element; by rewrite Hatom).
  rewrite filter_cons, Hhas.
  destruct (bool_decide (VStr (Atom._element atom) = element));
    [rewrite decide_True by exact I | rewrite decide_False by exact id];
    reflexivity.
Qed.

Lemma list_to_set_filter_elements (P : value → bool) S :
  list_to_set (filter (λ a, P a) (elements S)) =@{gset value} filter (λ a, P a) S.
Proof.
  apply set_eq. intros a.
  rewrite elem_of_list_to_set, list_elem_of_filter, elem_of_elements, elem_of_filter.
  done.
Qed.

(** What [atoms] does on a structure: it returns a set object that did not
    exist before, holding the selected members, and leaves every object
    that did exist as it was. *)
Lemma atoms_spec h self S element :
  AtomicStructure.holds h self S →
  defined h element →
  ∃ l h',
    AtomicStructure.atoms self element h = (inr l, h') ∧
    h !! l = None ∧
    h' !! l = Some (Atom.OSet (selected h element S)) ∧
    ∀ l0, is_Some (h !! l0) → h' !! l0 = h !! l0.
Proof.
  intros [Hself Hatoms] Hdef.
  unfold AtomicStructure.atoms. unfold bind at 1.
  rewrite (list_spec _ _ _ Hself). unfold bind at 1.
  unfold set_ at 1. rewrite alloc_spec, list_to_set_elements_L.
  set (l1 := fresh (dom h)). set (h1 := <[l1 := Atom.OSet S]> h).
  assert (h !! l1 = None) as Hl1 by apply fresh_unused.
  assert (∀ l0, is_Some (h !! l0) → h1 !! l0 = h !! l0) as Hframe1.
  { intros l0 [o Ho]. unfold h1. rewrite lookup_insert_ne; [done|].
    intros <-. congruence. }
  unfold bind at 1, truthy, gets, selected.
  unfold h1 at 1, l1 at 1. rewrite truth_alloc by done.
  destruct (truth h element).
  - unfold bind at 1.
    rewrite (list_spec h1 l1 S) by (unfold h1; apply lookup_insert_eq).
    unfold bind at 1. rewrite filter_by_element.
    2:{ apply Forall_forall. intros a Ha%elem_of_elements.
        unfold h1, l1. apply isinstance_alloc. by apply Hatoms. }
    unfold set_. rewrite alloc_spec.
    set (l2 := fresh (dom h1)).
    assert (h1 !! l2 = None) as Hl2 by apply fresh_unused.
    assert (l2 ≠ l1) as Hne.
    { intros Heq. rewrite Heq in Hl2. unfold h1 in Hl2.
      by rewrite lookup_insert_eq in Hl2. }
    exists l2, (<[l2 := Atom.OSet (list_to_set
      (filter (λ a, has_element h1 element a) (elements S)))]> h1).
    split; [done|]. split.
    { destruct (h !! l2) as [o|] eqn:Ho; [|done].
      rewrite <- (Hframe1 l2) in Ho by (by rewrite Ho). congruence. }
    split.
    + rewrite lookup_insert_eq. do 2 f_equal.
      rewrite list_to_set_filter_elements.
      apply set_eq. intros a. rewrite !elem_of_filter.
      split; intros [Hp Ha]; (split; [|done]).
      * unfold h1, l1 in Hp. by rewrite has_element_alloc in Hp by eauto.
      * unfold h1, l1. by rewrite has_element_alloc by eauto.
    + intros l0 Hl0. rewrite lookup_insert_ne; [by apply Hframe1|].
      intros <-. rewrite <- Hframe1 in Hl0 by done.
      rewrite Hl2 in Hl0. by destruct Hl0.
  - exists l1, h1. split; [done|]. split; [done|].
    split; [unfold h1; apply lookup_insert_eq | done].
Qed.

End Retrieval.

(** ** Calls of [atoms] *)

Section Calls.
Context {num : Type}.
Implicit Types (h : heap num) (v : value) (S : gset value).

Lemma call_atoms_positional self element h :
  AtomicStructure.call_atoms self [element] [] h
  = AtomicStructure.atoms self element h.
Proof. reflexivity. Qed.

Lemma call_atoms_keyword self element h :
  AtomicStructure.call_atoms self [] [("element", element)] h
  = AtomicStructure.atoms self element h.
Proof. reflexivity. Qed.

Lemma call_atoms_bare self h :
  AtomicStructure.call_atoms self [] [] h
  = AtomicStructure.atoms self VNone h.
Proof. reflexivity. Qed.

Lemma call_atoms_unknown_keyword self kw v h :
  kw ≠ "element" →
  AtomicStructure.call_atoms self [] [(kw, v)] h
  = (inl (Exn TypeError (VStr kw)), h).
Proof.
  intros Hkw. unfold AtomicStructure.call_atoms, bind_optional.
  rewrite filter_cons, decide_True by done. reflexivity.
Qed.

(** Binding the arguments of a call either fails with a [TypeError], or
    yields [None] or one of the values passed. *)
Lemma bind_optional_outcome name (args : list value) (kwargs : list (string * value)) :
  (∃ v, bind_optional name args kwargs = inl (Exn TypeError v)) ∨
  (∃ v, bind_optional name args kwargs = inr v ∧
        (v = VNone ∨ v ∈ args ∨ v ∈ kwargs.*2)).
Proof.
  unfold bind_optional.
  destruct (filter _ kwargs) as [|[k w] ?]; [|left; by eexists].
  destruct args as [|v [|v' args]], kwargs as [|[k w] kwargs];
    try (left; by eexists); right; eexists; (split; [reflexivity|]).
  - by left.
  - right; right. simpl. left.
  - right; left. left.
Qed.

(** C2 (as the code has it): [atoms] has one optional parameter,
    [element], and no selector of kinds.  A call that passes a keyword of
    any other name, [atom_type] included, raises [TypeError] whatever the
    value passed, string or not.  A selector passed as [element], by
    position or by keyword, is never rejected, whatever its type: the call
    returns a set holding the members whose element equals the selector,
    or all members when the selector is false in a truth test.  Whatever
    the arguments of a call, it either returns a set or raises [TypeError]
    on binding its arguments, with the heap untouched: never a
    [ValueError]. *)
Theorem atoms_selects_by_element_only h self S :
  AtomicStructure.holds h self S →
  (∀ kw v, kw ≠ "element" →
     AtomicStructure.call_atoms self [] [(kw, v)] h
     = (inl (Exn TypeError (VStr kw)), h)) ∧
  (∀ element, defined h element →
     ∃ l h',
       AtomicStructure.call_atoms self [element] [] h = (inr l, h') ∧
       AtomicStructure.call_atoms self [] [("element", element)] h = (inr l, h') ∧
       h' !! l = Some (Atom.OSet (selected h element S))) ∧
  (∀ args kwargs,
     Forall (defined h) args → Forall (defined h) kwargs.*2 →
     (∃ l h', AtomicStructure.call_atoms self args kwargs h = (inr l, h')) ∨
     (∃ v, AtomicStructure.call_atoms self args kwargs h
           = (inl (Exn TypeError v), h))).
Proof.
  intros Hholds. split; [|split].
  - intros kw v Hkw. by apply call_atoms_unknown_keyword.
  - intros element Hdef.
    destruct (atoms_spec h self S element Hholds Hdef) as (l & h' & Hrun & _ & Hl & _).
    exists l, h'. by rewrite call_atoms_positional, call_atoms_keyword.
  - intros args kwargs Hargs Hkwargs. unfold AtomicStructure.call_atoms.
    destruct (bind_optional_outcome "element" args kwargs)
      as [[v Hv]|(v & Hv & Hfrom)].
    + right. exists v. by erewrite bind_inl by (unfold lift; by rewrite Hv).
    + left. erewrite bind_inr by (unfold lift; by rewrite Hv).
      assert (defined h v) as Hdef.
      { destruct Hfrom as [->|[Hin|Hin]]; [done| |].
        - by eapply Forall_forall in Hargs.
        - by eapply Forall_forall in Hkwargs. }
      destruct (atoms_spec h self S v Hholds Hdef) as (l & h' & Hrun & _).
      by exists l, h'.
Qed.

(** C4: for a non-empty set [A] of atoms, given to the constructor in any
    order (and with any repetitions), the structure is built, and [atoms()]
    called on it with no argument returns a set equal to [A]. *)
Theorem atoms_of_constructed_structure h (args : list value) (A : gset value) :
  A ≠ ∅ →
  list_to_set args = A →
  (∀ a, a ∈ A → Atom.isinstance h a = true) →
  ∃ self h1 l h2,
    AtomicStructure.__init__ args h = (inr self, h1) ∧
    AtomicStructure.call_atoms self [] [] h1 = (inr l, h2) ∧
    h2 !! l = Some (Atom.OSet A).
Proof.
  intros _ HA Hatoms.
  assert (forallb (Atom.isinstance h) args = true) as Hall.
  { apply forallb_forall. intros a Ha%list_elem_of_In.
    apply Hatoms. rewrite <- HA. by apply elem_of_list_to_set. }
  set (self := AtomicStructure.Make (fresh (dom h))).
  set (h1 := <[fresh (dom h) := Atom.OSet (list_to_set args)]> h).
  assert (AtomicStructure.holds h1 self A) as Hholds.
  { split.
    - unfold h1, self. simpl. by rewrite lookup_insert_eq, HA.
    - intros a Ha. unfold h1. by apply isinstance_alloc, Hatoms. }
  destruct (atoms_spec h1 self A VNone Hholds I) as (l & h2 & Hrun & _ & Hl & _).
  exists self, h1, l, h2.
  split; [by apply init_all_atoms|].
  split; [by rewrite call_atoms_bare | done].
Qed.

(** Mutating one set object leaves all other objects alone, and the
    object stays a set. *)
Lemma mutate_frame (ops : list set_op) h l S0 :
  h !! l = Some (Atom.OSet S0) →
  (∃ S1, (mutate l ops h).2 !! l = Some (Atom.OSet S1)) ∧
  ∀ l0, l0 ≠ l → (mutate l ops h).2 !! l0 = h !! l0.
Proof.
  revert h S0. induction ops as [|op ops IH]; intros h S0 Hl.
  { simpl. eauto. }
  cbn [mutate]. destruct op as [v|v]; cbn [apply_op].
  - assert (set_add l v h = (inr tt, <[l := Atom.OSet ({[v]} ∪ S0)]> h)) as Hadd.
    { unfold set_add. by erewrite bind_inr by (by apply as_set_spec). }
    erewrite bind_inr by exact Hadd.
    destruct (IH (<[l := Atom.OSet ({[v]} ∪ S0)]> h) ({[v]} ∪ S0)) as [Hset Hframe];
      [apply lookup_insert_eq|].
    split; [done|]. intros l0 Hne. rewrite Hframe by done.
    by rewrite lookup_insert_ne.
  - destruct (decide (v ∈ S0)) as [Hin|Hout].
    + assert (set_remove l v h = (inr tt, <[l := Atom.OSet (S0 ∖ {[v]})]> h)) as Hrem.
      { unfold set_remove. erewrite bind_inr by (by apply as_set_spec).
        by rewrite decide_True. }
      erewrite bind_inr by exact Hrem.
      destruct (IH (<[l := Atom.OSet (S0 ∖ {[v]})]> h) (S0 ∖ {[v]})) as [Hset Hframe];
        [apply lookup_insert_eq|].
      split; [done|]. intros l0 Hne. rewrite Hframe by done.
      by rewrite lookup_insert_ne.
    + assert (set_remove l v h = (inl (Exn KeyError v), h)) as Hrem.
      { unfold set_remove. erewrite bind_inr by (by apply as_set_spec).
        by rewrite decide_False. }
      erewrite bind_inl by exact Hrem. simpl. eauto.
Qed.

(** C10: [atoms] returns a set object other than the structure's own, one
    that did not exist before the call.  Whatever additions and removals a
    caller then makes to the returned set, the structure still holds the
    same atoms, and [in] answers as before. *)
Theorem atoms_returns_a_copy h self S element :
  AtomicStructure.holds h self S →
  defined h element →
  ∃ l h',
    AtomicStructure.atoms self element h = (inr l, h') ∧
    l ≠ AtomicStructure._atoms self ∧
    h !! l = None ∧
    ∀ ops : list set_op,
      AtomicStructure.holds (mutate l ops h').2 self S ∧
      ∀ member,
        AtomicStructure.__contains__ self member (mutate l ops h').2
        = (inr (bool_decide (member ∈ S)), (mutate l ops h').2).
Proof.
  intros Hholds Hdef.
  destruct (atoms_spec h self S element Hholds Hdef)
    as (l & h' & Hrun & Hnew & Hl & Hframe).
  destruct Hholds as [Hself Hatoms].
  assert (l ≠ AtomicStructure._atoms self) as Hne by (intros ->; congruence).
  exists l, h'. do 3 (split; [done|]). intros ops.
  destruct (mutate_frame ops h' l _ Hl) as [_ Hrest].
  assert ((mutate l ops h').2 !! AtomicStructure._atoms self = Some (Atom.OSet S))
    as Hself'.
  { rewrite Hrest by done. rewrite Hframe by (by rewrite Hself). done. }
  split.
  - split; [done|]. intros a Ha.
    apply Hatoms, isinstance_get in Ha as [atom Hatom].
    apply isinstance_get. exists atom.
    destruct a as [| | |la]; simpl in Hatom |- *; try discriminate.
    destruct (h !! la) as [o|] eqn:Hla; [|discriminate].
    rewrite Hrest by (intros ->; congruence).
    rewrite Hframe by (by rewrite Hla). by rewrite Hla.
  - intros member. unfold AtomicStructure.__contains__, set_contains.
    by erewrite bind_inr by (by apply as_set_spec).
Qed.

End Calls.

(** ** The structures a program can build *)

Section Invariant.
Context {num : Type}.
Implicit Types (h : heap num) (S : gset value).

(** The constructor, where it succeeds, builds a structure that the heap
    holds. *)
Lemma init_holds h (atoms : list value) :
  forallb (Atom.isinstance h) atoms = true →
  ∃ self h',
    AtomicStructure.__init__ atoms h = (inr self, h') ∧
    AtomicStructure.holds h' self (list_to_set atoms).
Proof.
  intros Hall. eexists _, _. split; [by apply init_all_atoms|].
  split; [apply lookup_insert_eq|].
  intros a Ha%elem_of_list_to_set%list_elem_of_In. apply isinstance_alloc.
  by eapply forallb_forall in Hall.
Qed.

Lemma holds_set_update h self S S' :
  AtomicStructure.holds h self S →
  (∀ a, a ∈ S' → Atom.isinstance h a = true) →
  AtomicStructure.holds (<[AtomicStructure._atoms self := Atom.OSet S']> h) self S'.
Proof.
  intros [Hself Hatoms] HS'. split; [apply lookup_insert_eq|].
  intros a Ha. unfold Atom.isinstance.
  rewrite (get_set_update _ _ S S' a Hself). by apply HS'.
Qed.

(** [add_atom] and [remove_atom] act on the structure's own set. *)
Lemma add_atom_holds h self S atom :
  AtomicStructure.holds h self S →
  Atom.isinstance h atom = true →
  ∃ h',
    AtomicStructure.add_atom self atom h = (inr tt, h') ∧
    AtomicStructure.holds h' self ({[atom]} ∪ S).
Proof.
  intros Hholds Hatom. eexists. split.
  - unfold AtomicStructure.add_atom, gets, bind at 1. rewrite Hatom. simpl.
    unfold set_add. by erewrite bind_inr by (apply as_set_spec, Hholds).
  - apply (holds_set_update h self S); [done|].
    intros a [->%elem_of_singleton|Ha]%elem_of_union; [done|].
    by apply Hholds.
Qed.

Lemma remove_atom_holds h self S atom :
  AtomicStructure.holds h self S →
  atom ∈ S →
  ∃ h',
    AtomicStructure.remove_atom self atom h = (inr tt, h') ∧
    AtomicStructure.holds h' self (S ∖ {[atom]}).
Proof.
  intros Hholds Hin. eexists. split.
  - unfold AtomicStructure.remove_atom, set_remove.
    erewrite bind_inr by (apply as_set_spec, Hholds).
    by rewrite decide_True.
  - apply (holds_set_update h self S); [done|].
    intros a [Ha _]%elem_of_difference. by apply Hholds.
Qed.

End Invariant.

(** ** Reading the atoms of a structure *)

Section Reading.
Context {num : Type} `{!Number num, !PeriodicTable num}.
Implicit Types (h : heap num) (v : value) (S : gset value).

(** A comprehension that calls a method of [Atom] on each of a list of
    atoms returns the list of the results, and only reads the heap. *)
Lemma comprehension_method {A} (f : Atom.t num → A) h (xs : list value) :
  Forall (λ a, Atom.isinstance h a = true) xs →
  ∃ ys,
    comprehension (Atom.method f) xs h = (inr ys, h) ∧
    Forall2 (λ a y, ∃ atom, Atom.get h a = Some atom ∧ y = f atom) xs ys.
Proof.
  induction 1 as [|a xs Ha _ (ys & Hrun & Hys)].
  { exists []. by split; [|constructor]. }
  apply isinstance_get in Ha as [atom Hatom].
  exists (f atom :: ys). split.
  - cbn [comprehension].
    erewrite bind_inr by (unfold Atom.method; by rewrite Hatom).
    by erewrite bind_inr by exact Hrun.
  - constructor; [by exists atom | done].
Qed.

Lemma comprehension_mass h (xs : list value) :
  Forall (λ a, Atom.isinstance h a = true) xs →
  comprehension Atom.mass xs h = (inr (map (mass_in h) xs), h).
Proof.
  intros Hxs.
  destruct (comprehension_method Atom.mass_of h xs Hxs) as (ys & Hrun & Hys).
  unfold Atom.mass. rewrite Hrun. do 2 f_equal.
  clear Hrun Hxs. induction Hys as [|a y xs ys (atom & Hatom & ->) _ IH]; [done|].
  cbn [map]. rewrite <- IH. unfold mass_in. by rewrite Hatom.
Qed.

Lemma members_are_atoms h self S :
  AtomicStructure.holds h self S →
  Forall (λ a, Atom.isinstance h a = true) (elements S).
Proof.
  intros [_ Hatoms]. apply Forall_forall. intros a Ha%elem_of_elements. auto.
Qed.

Lemma mass_spec h self S :
  AtomicStructure.holds h self S →
  AtomicStructure.mass self h
  = (inr (AtomicStructure.sum (map (mass_in h) (elements S))), h).
Proof.
  intros Hholds. unfold AtomicStructure.mass.
  erewrite bind_inr by (apply list_spec, Hholds).
  erewrite bind_inr by (eapply comprehension_mass, members_are_atoms, Hholds).
  reflexivity.
Qed.

End Reading.

(** ** Rotation about an axis that is not one *)

Section Rotation.
Context {num : Type} `{!Number num, !PeriodicTable num, !Geometrica num}.
Implicit Types (h : heap num) (S : gset value).

(** C7: when the axis is none of [x], [y] and [z], and the geometry library
    rejects such an axis with a [ValueError] as its contract says,
    [rotate] fails with that [ValueError], and the heap it leaves is the
    heap it was started in: no coordinate of any atom has been assigned. *)
Theorem rotate_rejects_other_axes h self S axis angle :
  checks_axis →
  AtomicStructure.holds h self S →
  axis ∉ principal_axes →
  ∃ v, AtomicStructure.rotate self axis angle h = (inl (Exn ValueError v), h).
Proof.
  intros Hlib Hholds Haxis.
  destruct (comprehension_method Atom.location_of h (elements S))
    as (cloud & Hcloud & _); [by eapply members_are_atoms|].
  destruct (Hlib cloud axis angle Haxis) as [v Hv].
  exists v. unfold AtomicStructure.rotate.
  erewrite bind_inr by (apply list_spec, Hholds).
  erewrite bind_inr by exact Hcloud.
  erewrite bind_inl; [reflexivity|]. unfold lift. by rewrite Hv.
Qed.

End Rotation.

(** ** Mass *)

Section Mass.
Context {num : Type} `{!Number num, !PeriodicTable num}.
Implicit Types (h : heap num) (S G : gset value) (xs ys : list num).

(** Addition of exact numbers. *)
Hypothesis add_assoc : ∀ a b c : num, add a (add b c) = add (add a b) c.
Hypothesis add_comm : ∀ a b : num, add a b = add b a.
Hypothesis add_zero_l : ∀ a : num, add zero a = a.

Lemma foldl_add_from (z : num) xs :
  foldl add z xs = add z (AtomicStructure.sum xs).
Proof.
  unfold AtomicStructure.sum. revert z.
  induction xs as [|x xs IH]; intros z; simpl.
  - by rewrite add_comm, add_zero_l.
  - rewrite (IH (add z x)), (IH (add zero x)), add_zero_l. by rewrite add_assoc.
Qed.

Lemma sum_cons (x : num) xs :
  AtomicStructure.sum (x :: xs) = add x (AtomicStructure.sum xs).
Proof.
  unfold AtomicStructure.sum at 1. simpl.
  by rewrite foldl_add_from, add_zero_l.
Qed.

Lemma sum_app xs ys :
  AtomicStructure.sum (xs ++ ys)
  = add (AtomicStructure.sum xs) (AtomicStructure.sum ys).
Proof.
  induction xs as [|x xs IH]; simpl.
  - by rewrite add_zero_l.
  - by rewrite !sum_cons, IH, add_assoc.
Qed.

(** The order a set is visited in does not matter to the sum. *)
Lemma sum_permutation xs ys :
  xs ≡ₚ ys → AtomicStructure.sum xs = AtomicStructure.sum ys.
Proof.
  induction 1 as [|x xs ys _ IH|x y xs|xs ys zs _ IH1 _ IH2].
  - done.
  - by rewrite !sum_cons, IH.
  - rewrite !sum_cons, !add_assoc. by rewrite (add_comm x y).
  - by rewrite IH1.
Qed.

Lemma total_empty h : total h ∅ = zero.
Proof. unfold total. by rewrite elements_empty. Qed.

Lemma total_union h G S :
  G ## S → total h (G ∪ S) = add (total h G) (total h S).
Proof.
  intros Hdisj. unfold total. rewrite <- sum_app, <- map_app.
  apply sum_permutation, fmap_Permutation. by apply elements_disj_union.
Qed.

Lemma partitions_cons G (Gs : list (gset value)) S :
  partitions (G :: Gs) S →
  G ## ⋃ Gs ∧ S = G ∪ ⋃ Gs ∧ partitions Gs (⋃ Gs).
Proof.
  intros [Hunion Hdisj]. split; [|split; [done|split; [done|]]].
  - apply elem_of_disjoint. intros a HaG [G' [HG' Ha]]%elem_of_union_list.
    apply list_elem_of_lookup in HG' as [j Hj].
    assert (G ## G') as HGG' by (by apply (Hdisj 0%nat (Datatypes.S j))).
    set_solver.
  - intros i j G1 G2 Hij Hi Hj.
    apply (Hdisj (Datatypes.S i) (Datatypes.S j)); [congruence|done..].
Qed.

Lemma total_partition h (Gs : list (gset value)) :
  partitions Gs (⋃ Gs) →
  total h (⋃ Gs) = AtomicStructure.sum (map (total h) Gs).
Proof.
  induction Gs as [|G Gs IH]; intros Hpart.
  - simpl. apply total_empty.
  - apply partitions_cons in Hpart as (Hdisj & _ & Hrest).
    change (⋃ (G :: Gs)) with (G ∪ ⋃ Gs). cbn [map].
    by rewrite sum_cons, total_union, IH.
Qed.

Lemma sum_series xs : AtomicStructure.sum xs = series xs.
Proof.
  induction xs as [|x xs IH]; [done|]. rewrite sum_cons, IH. reflexivity.
Qed.


End Mass.

(** ** Records of a PDB file *)

Section Records.
Import PdbRecord.

Lemma length_spaces n : String.length (spaces n) = n.
Proof. induction n as [|n IH]; simpl; [done | by rewrite IH]. Qed.

Lemma length_append (s1 s2 : string) :
  String.length (s1 ++ s2)%string = (String.length s1 + String.length s2)%nat.
Proof. induction s1 as [|c s1 IH]; simpl; [done | by rewrite IH]. Qed.

Lemma length_substring (n m : nat) (s : string) :
  String.length (substring n m s) = (m `min` (String.length s - n))%nat.
Proof.
  revert n m. induction s as [|c s IH]; intros n m.
  - destruct n, m; simpl; lia.
  - destruct n as [|n]; [destruct m as [|m]|]; simpl; [done| |]; rewrite IH; lia.
Qed.

Lemma substring_all (s : string) : substring 0 (String.length s) s = s.
Proof. induction s as [|c s IH]; simpl; [done | by rewrite IH]. Qed.

(** Padding to a width and then cutting at that width is cutting, then
    padding with the spaces that were missing. *)
Lemma cut_padded (width : nat) (s : string) :
  substring 0 width (ljust width s)
  = (substring 0 width s ++ spaces (width - String.length s))%string.
Proof.
  unfold ljust. revert width. induction s as [|c s IH]; intros width.
  - simpl. rewrite Nat.sub_0_r.
    rewrite <- (length_spaces width) at 1. rewrite substring_all.
    by destruct width.
  - destruct width as [|width]; [done|]. simpl. by rewrite IH.
Qed.

(** C5: whatever the line, of length 0 to 80 or longer, and whatever the
    number, the text of the record has exactly 80 characters and its
    contents exactly 74.  The text is the line cut at 80 characters and then
    padded on the right with the spaces missing to 80; the contents are the
    last 74 characters of the text. *)
Theorem record_lengths_are_fixed (line : string) (number : Z) :
  String.length (text (__init__ line number)) = 80%nat ∧
  String.length (contents (__init__ line number)) = 74%nat ∧
  text (__init__ line number)
    = (slice 0 80 line ++ spaces (80 - String.length line))%string ∧
  contents (__init__ line number)
    = substring 6 74 (text (__init__ line number)).
Proof.
  assert (String.length (slice 0 80 (ljust 80 line)) = 80%nat) as Htext.
  { unfold slice, ljust. rewrite length_substring, length_append, length_spaces. lia. }
  cbn [__init__ text contents].
  split; [exact Htext|]. split.
  - unfold slice at 1. rewrite length_substring, Htext. lia.
  - split; [|reflexivity]. unfold slice. apply cut_padded.
Qed.

(** The record of the test-suite. *)
Example record_of_test_line :
  let r := __init__ "TEST   123  123.8    HYT" 23 in
  PdbRecord.number r = 23 ∧ name r = "TEST" ∧
  substring 0 18 (contents r) = " 123  123.8    HYT" ∧
  substring 0 24 (text r) = "TEST   123  123.8    HYT".
Proof. vm_compute. done. Qed.

End Records.

(** ** The code of a PDB file *)

Section Codes.
Import Pdb.

Lemma set_code_not_a_string (v : value) (self : Pdb.t) :
  (∀ s, v ≠ VStr s) → set_code v self = (inl (Exn TypeError v), self).
Proof. intros Hv. destruct v as [| |s|]; try done. by destruct (Hv s). Qed.

Lemma set_code_malformed (s : string) (self : Pdb.t) :
  valid_code s = false →
  set_code (VStr s) self = (inl (Exn ValueError (VStr s)), self).
Proof. intros Hs. unfold set_code. by rewrite Hs. Qed.

Lemma valid_code_false (s : string) :
  String.length s ≠ 4%nat ∨ (∀ c s', s = String c s' → is_digit c = false) →
  valid_code s = false.
Proof.
  intros [Hlen|Hdigit]; destruct s as [|c s']; try done; unfold valid_code.
  - apply andb_false_intro1. by apply Nat.eqb_neq.
  - apply andb_false_intro2. by apply (Hdigit c s').
Qed.

(** C9: writing a code that is not a string raises [TypeError]; writing a
    string that has not exactly four characters, or whose first character
    is not a digit, raises [ValueError], as ["1abcd"], ["abcd"] and ["1ab"]
    do; in both cases the stored code stays as it was.  Writing ["1abc"]
    succeeds, and the code read back afterwards is ["1abc"]. *)
Theorem code_is_validated_on_write (self : Pdb.t) :
  (∀ v, (∀ s, v ≠ VStr s) → set_code v self = (inl (Exn TypeError v), self)) ∧
  (∀ s, String.length s ≠ 4%nat ∨ (∀ c s', s = String c s' → is_digit c = false) →
        set_code (VStr s) self = (inl (Exn ValueError (VStr s)), self)) ∧
  set_code (VStr "1abcd") self = (inl (Exn ValueError (VStr "1abcd")), self) ∧
  set_code (VStr "abcd") self = (inl (Exn ValueError (VStr "abcd")), self) ∧
  set_code (VStr "1ab") self = (inl (Exn ValueError (VStr "1ab")), self) ∧
  ∃ self',
    set_code (VStr "1abc") self = (inr tt, self') ∧
    code self' = (inr (VStr "1abc"), self') ∧
    _models self' = _models self ∧
    _deposition_date self' = _deposition_date self ∧
    _title self' = _title self.
Proof.
  split; [intros v Hv; by apply set_code_not_a_string|].
  split; [intros s Hs; by apply set_code_malformed, valid_code_false|].
  do 3 (split; [by apply set_code_malformed|]).
  eexists. split; [reflexivity|]. by repeat split.
Qed.

End Codes.

(** ** The definitions at work *)

Section Runs.
Import World.

Example lab_constructs_molecule :
  AtomicStructure.__init__ [carbon; hydrogen; mysterium] lab = (inr molecule, bench).
Proof. vm_compute. reflexivity. Qed.

Lemma members_cases (a : value) :
  a ∈ members → a = carbon ∨ a = hydrogen ∨ a = mysterium.
Proof.
  unfold members. rewrite !elem_of_union, !elem_of_singleton. tauto.
Defined.

Lemma lab_has_the_members a : a ∈ members → Atom.isinstance lab a = true.
Proof. intros [->|[->| ->]]%members_cases; reflexivity. Defined.

Lemma bench_holds_molecule : AtomicStructure.holds bench molecule members.
Proof.
  split; [reflexivity|].
  intros a [->|[->| ->]]%members_cases; reflexivity.
Defined.

(** C1, refuted as stated: the constructor called with no argument, in a
    heap of three atoms, returns a structure, and the set of atoms of that
    structure is empty. *)
Lemma empty_structure_is_constructed :
  AtomicStructure.__init__ [] lab
  = (inr (AtomicStructure.Make 4%positive), <[4%positive := Atom.OSet ∅]> lab) ∧
  AtomicStructure.holds (<[4%positive := Atom.OSet ∅]> lab)
    (AtomicStructure.Make 4%positive) ∅.
Proof.
  split; [vm_compute; reflexivity|].
  split; [reflexivity | set_solver].
Qed.

(** C2, refuted as stated: on a structure of three atoms, the string
    ["xyz"], which is none of ["pdb"], ["generic"] and ["all"], and the
    integer 1 are both accepted as selectors, and the set returned is empty;
    named [atom_type], the string ["xyz"] raises [TypeError], not
    [ValueError]. *)
Lemma atoms_accepts_any_selector :
  (AtomicStructure.call_atoms molecule [VStr "xyz"] [] bench).1 = inr 6%positive ∧
  (AtomicStructure.call_atoms molecule [VStr "xyz"] [] bench).2 !! 6%positive
    = Some (Atom.OSet ∅) ∧
  (AtomicStructure.call_atoms molecule [VInt 1] [] bench).1 = inr 6%positive ∧
  (AtomicStructure.call_atoms molecule [VInt 1] [] bench).2 !! 6%positive
    = Some (Atom.OSet ∅) ∧
  AtomicStructure.call_atoms molecule [] [("atom_type", VStr "xyz")] bench
    = (inl (Exn TypeError (VStr "atom_type")), bench).
Proof. repeat split; vm_compute; reflexivity. Qed.

(** The amended C2 at work: selecting carbon. *)
Lemma atoms_selects_carbon :
  ∃ l h',
    AtomicStructure.call_atoms molecule [VStr "C"] [] bench = (inr l, h') ∧
    h' !! l = Some (Atom.OSet (selected bench (VStr "C") members)).
Proof.
  destruct (atoms_selects_by_element_only bench molecule members
              bench_holds_molecule) as (_ & Hsel & _).
  destruct (Hsel (VStr "C") I) as (l & h' & Hrun & _ & Hl).
  by exists l, h'.
Defined.

(** C3 at work: one atom and one string. *)
Lemma constructor_rejects_a_string :
  ∃ first,
    first ∈ [carbon; VStr "Atom2"] ∧ Atom.isinstance lab first = false ∧
    AtomicStructure.__init__ [carbon; VStr "Atom2"] lab
    = (inl (Exn TypeError first), lab).
Proof.
  apply (init_rejects_any_non_atom lab [carbon; VStr "Atom2"] (VStr "Atom2")).
  - right. left.
  - reflexivity.
Defined.

(** C4 at work: the three atoms of the heap. *)
Lemma atoms_of_the_molecule :
  ∃ self h1 l h2,
    AtomicStructure.__init__ [carbon; hydrogen; mysterium] lab = (inr self, h1) ∧
    AtomicStructure.call_atoms self [] [] h1 = (inr l, h2) ∧
    h2 !! l = Some (Atom.OSet members).
Proof.
  apply (atoms_of_constructed_structure lab [carbon; hydrogen; mysterium] members).
  - intros Hempty. assert (carbon ∈ members) as Hin.
    { unfold members. rewrite !elem_of_union, !elem_of_singleton. tauto. }
    rewrite Hempty in Hin. by apply not_elem_of_empty in Hin.
  - vm_compute. reflexivity.
  - apply lab_has_the_members.
Defined.

(** C10 at work: the carbon atoms of the molecule. *)
Lemma copy_of_the_carbons :
  ∃ l h',
    AtomicStructure.atoms molecule (VStr "C") bench = (inr l, h') ∧
    l ≠ AtomicStructure._atoms molecule ∧
    bench !! l = None ∧
    ∀ ops : list set_op,
      AtomicStructure.holds (mutate l ops h').2 molecule members ∧
      ∀ member,
        AtomicStructure.__contains__ molecule member (mutate l ops h').2
        = (inr (bool_decide (member ∈ members)), (mutate l ops h').2).
Proof.
  exact (atoms_returns_a_copy bench molecule members (VStr "C")
           bench_holds_molecule I).
Defined.

(** By contrast, a removal through the structure itself is seen by [in]. *)
Example removal_through_the_structure :
  (AtomicStructure.__contains__ molecule carbon bench).1 = inr true ∧
  (AtomicStructure.__contains__ molecule carbon
     (AtomicStructure.remove_atom molecule carbon bench).2).1 = inr false.
Proof. split; vm_compute; reflexivity. Qed.

(** The grid library checks the axis. *)
Lemma grid_checks_axis : checks_axis (num := Z).
Proof.
  intros cloud axis angle Haxis. exists axis. simpl.
  by rewrite bool_decide_false.
Defined.

(** C7 at work: an axis [w]. *)
Lemma rotate_about_w :
  ∃ v,
    AtomicStructure.rotate molecule (VStr "w") 90 bench
    = (inl (Exn ValueError v), bench).
Proof.
  apply (rotate_rejects_other_axes bench molecule members (VStr "w") 90
           grid_checks_axis bench_holds_molecule).
  unfold principal_axes. intros Hin.
  repeat (apply elem_of_cons in Hin as [Heq|Hin]; [discriminate Heq|]).
  by apply not_elem_of_nil in Hin.
Defined.

(** A rotation about a proper axis does move the atoms: a quarter turn
    about [z] takes the hydrogen atom from (1, 0, 0) to (0, 1, 0). *)
Example rotate_about_z :
  (AtomicStructure.rotate molecule (VStr "z") 90 bench).1 = inr tt ∧
  Atom.get (AtomicStructure.rotate molecule (VStr "z") 90 bench).2 hydrogen
  = Some (Atom.Make "H" 0 1 0).
Proof. split; vm_compute; reflexivity. Qed.

Lemma shelf_holds_the_structures :
  AtomicStructure.holds shelf molecule members ∧
  Forall (λ g, AtomicStructure.holds shelf g.1 g.2) parts.
Proof.
  split; [|constructor; [|constructor; [|constructor]]];
    (split; [reflexivity|]); simpl.
  - intros a [->|[->| ->]]%members_cases; reflexivity.
  - intros a. rewrite elem_of_union, !elem_of_singleton.
    intros [->| ->]; reflexivity.
  - intros a ->%elem_of_singleton. reflexivity.
Defined.

Lemma shelf_is_partitioned :
  partitions parts.*2 members.
Proof.
  split; [vm_compute; reflexivity|].
  intros [|[|i]] [|[|j]] G G' Hij HG HG'; try done;
    injection HG as <-; injection HG' as <-;
    apply elem_of_disjoint; intros a;
    rewrite elem_of_union, !elem_of_singleton.
  - intros [->| ->]; discriminate.
  - intros -> [?|?]; discriminate.
Defined.


Example mass_of_the_molecule_is :
  AtomicStructure.mass molecule shelf = (inr 13019, shelf).
Proof. vm_compute. reflexivity. Qed.

End Runs.

(** * Further properties of [AtomicStructure] *)

(** ** Adding and removing atoms *)

Section Membership.
Context {num : Type}.
Implicit Types (h : heap num) (S : gset value) (l : loc).

Lemma add_then_remove_set (a : value) S : a ∉ S → ({[a]} ∪ S) ∖ {[a]} = S.
Proof.
  intros Ha. apply set_eq. intros b.
  rewrite elem_of_difference, elem_of_union, elem_of_singleton.
  destruct (decide (b = a)) as [->|]; tauto.
Qed.

Lemma remove_then_add_set (a : value) S : a ∈ S → {[a]} ∪ S ∖ {[a]} = S.
Proof.
  intros Ha. apply set_eq. intros b.
  rewrite elem_of_union, elem_of_difference, elem_of_singleton.
  destruct (decide (b = a)) as [->|]; tauto.
Qed.

Lemma add_member_set (a : value) S : a ∈ S → {[a]} ∪ S = S.
Proof.
  intros Ha. apply set_eq. intros b. rewrite elem_of_union, elem_of_singleton.
  split; [intros [->|]; done | tauto].
Qed.

Lemma set_add_spec h l S v :
  h !! l = Some (Atom.OSet S) →
  set_add l v h = (inr tt, <[l := Atom.OSet ({[v]} ∪ S)]> h).
Proof. intros Hl. unfold set_add. by erewrite bind_inr by (by apply as_set_spec). Qed.

Lemma set_remove_member h l S v :
  h !! l = Some (Atom.OSet S) → v ∈ S →
  set_remove l v h = (inr tt, <[l := Atom.OSet (S ∖ {[v]})]> h).
Proof.
  intros Hl Hv. unfold set_remove.
  erewrite bind_inr by (by apply as_set_spec). by rewrite decide_True.
Qed.

Lemma set_remove_stranger h l S v :
  h !! l = Some (Atom.OSet S) → v ∉ S →
  set_remove l v h = (inl (Exn KeyError v), h).
Proof.
  intros Hl Hv. unfold set_remove.
  erewrite bind_inr by (by apply as_set_spec). by rewrite decide_False.
Qed.

Lemma add_atom_spec h self S atom :
  AtomicStructure.holds h self S →
  Atom.isinstance h atom = true →
  AtomicStructure.add_atom self atom h
  = (inr tt, <[AtomicStructure._atoms self := Atom.OSet ({[atom]} ∪ S)]> h).
Proof.
  intros [Hself _] Hatom. unfold AtomicStructure.add_atom.
  erewrite bind_inr by reflexivity. rewrite Hatom. simpl.
  by apply set_add_spec.
Qed.

Lemma contains_spec h self S member :
  AtomicStructure.holds h self S →
  AtomicStructure.__contains__ self member h = (inr (bool_decide (member ∈ S)), h).
Proof.
  intros [Hself _]. unfold AtomicStructure.__contains__, set_contains.
  by erewrite bind_inr by (by apply as_set_spec).
Qed.

(** X1: [add_atom] checks its argument before it touches the set.  Given
    anything that is not an atom it raises [TypeError] and changes nothing;
    given an atom it succeeds, only the structure's own set object changes,
    and afterwards [in] is true of the new atom and answers as before for
    everything else. *)
Theorem add_atom_checks_then_adds h self S atom :
  AtomicStructure.holds h self S →
  (Atom.isinstance h atom = false →
     AtomicStructure.add_atom self atom h = (inl (Exn TypeError atom), h)) ∧
  (Atom.isinstance h atom = true →
     ∃ h',
       AtomicStructure.add_atom self atom h = (inr tt, h') ∧
       (∀ l, l ≠ AtomicStructure._atoms self → h' !! l = h !! l) ∧
       AtomicStructure.holds h' self ({[atom]} ∪ S) ∧
       ∀ member,
         AtomicStructure.__contains__ self member h'
         = (inr (bool_decide (member = atom ∨ member ∈ S)), h')).
Proof.
  intros Hholds. split.
  - intros Hatom. unfold AtomicStructure.add_atom.
    erewrite bind_inr by reflexivity. by rewrite Hatom.
  - intros Hatom. eexists. split; [by apply add_atom_spec|].
    assert (AtomicStructure.holds
              (<[AtomicStructure._atoms self := Atom.OSet ({[atom]} ∪ S)]> h)
              self ({[atom]} ∪ S)) as Hholds'.
    { apply (holds_set_update h self S); [done|].
      intros a [->%elem_of_singleton|Ha]%elem_of_union; [done|].
      by apply Hholds. }
    split; [intros l Hl; by rewrite lookup_insert_ne|]. split; [done|].
    intros member. rewrite (contains_spec _ _ _ _ Hholds'). do 2 f_equal.
    apply bool_decide_ext. by rewrite elem_of_union, elem_of_singleton.
Qed.

(** X2: [remove_atom] does not check what it is given.  For a member it
    succeeds, whether or not it is the last one, and afterwards [in] is
    false of it and answers as before for everything else; for anything
    that is not a member, atom or not, it raises [KeyError] and changes
    nothing. *)
Theorem remove_atom_removes_or_raises h self S atom :
  AtomicStructure.holds h self S →
  (atom ∉ S →
     AtomicStructure.remove_atom self atom h = (inl (Exn KeyError atom), h)) ∧
  (atom ∈ S →
     ∃ h',
       AtomicStructure.remove_atom self atom h = (inr tt, h') ∧
       (∀ l, l ≠ AtomicStructure._atoms self → h' !! l = h !! l) ∧
       AtomicStructure.holds h' self (S ∖ {[atom]}) ∧
       ∀ member,
         AtomicStructure.__contains__ self member h'
         = (inr (bool_decide (member ≠ atom ∧ member ∈ S)), h')).
Proof.
  intros Hholds. split.
  - intros Hout. apply (set_remove_stranger h _ S); [apply Hholds | done].
  - intros Hin. eexists.
    split; [apply (set_remove_member h _ S); [apply Hholds | done]|].
    assert (AtomicStructure.holds
              (<[AtomicStructure._atoms self := Atom.OSet (S ∖ {[atom]})]> h)
              self (S ∖ {[atom]})) as Hholds'.
    { apply (holds_set_update h self S); [done|].
      intros a [Ha _]%elem_of_difference. by apply Hholds. }
    split; [intros l Hl; by rewrite lookup_insert_ne|]. split; [done|].
    intros member. rewrite (contains_spec _ _ _ _ Hholds'). do 2 f_equal.
    apply bool_decide_ext. rewrite elem_of_difference, elem_of_singleton. tauto.
Qed.

(** X3: adding an atom that is not yet a member and removing it again
    leaves the heap exactly as it was. *)
Theorem add_then_remove_restores h self S atom :
  AtomicStructure.holds h self S →
  Atom.isinstance h atom = true →
  atom ∉ S →
  (AtomicStructure.add_atom self atom ;; AtomicStructure.remove_atom self atom) h
  = (inr tt, h).
Proof.
  intros Hholds Hatom Hnew.
  erewrite bind_inr by (by apply add_atom_spec).
  unfold AtomicStructure.remove_atom.
  erewrite set_remove_member;
    [|apply lookup_insert_eq | apply elem_of_union_l, elem_of_singleton; done].
  rewrite insert_insert_eq.
  rewrite add_then_remove_set by done.
  rewrite insert_id; [done|]. apply Hholds.
Qed.

(** X4: removing a member and adding it back leaves the heap exactly as it
    was. *)
Theorem remove_then_add_restores h self S atom :
  AtomicStructure.holds h self S →
  atom ∈ S →
  (AtomicStructure.remove_atom self atom ;; AtomicStructure.add_atom self atom) h
  = (inr tt, h).
Proof.
  intros Hholds Hin.
  assert (Atom.isinstance h atom = true) as Hatom by (by apply Hholds).
  assert (AtomicStructure.holds
            (<[AtomicStructure._atoms self := Atom.OSet (S ∖ {[atom]})]> h)
            self (S ∖ {[atom]})) as Hholds'.
  { apply (holds_set_update h self S); [done|].
    intros a [Ha _]%elem_of_difference. by apply Hholds. }
  erewrite bind_inr by (apply (set_remove_member h _ S); [apply Hholds | done]).
  erewrite add_atom_spec; [|exact Hholds'|].
  - rewrite insert_insert_eq, remove_then_add_set by done.
    rewrite insert_id; [done|]. apply Hholds.
  - unfold Atom.isinstance.
    rewrite (get_set_update _ _ S _ atom); [exact Hatom | apply Hholds].
Qed.

(** X5: the atoms of a structure form a set: adding an atom that is already
    a member succeeds and leaves the heap exactly as it was. *)
Theorem add_atom_twice_is_once h self S atom :
  AtomicStructure.holds h self S →
  atom ∈ S →
  AtomicStructure.add_atom self atom h = (inr tt, h).
Proof.
  intros Hholds Hin.
  rewrite (add_atom_spec h self S) by (done || by apply Hholds).
  rewrite add_member_set by done.
  rewrite insert_id; [done|]. apply Hholds.
Qed.

End Membership.

(** ** Structures and the sets behind them *)

Section Ownership.
Context {num : Type}.
Implicit Types (h : heap num) (S : gset value) (l : loc).

Lemma all_atoms_forallb h (args : list value) :
  Forall (λ a, Atom.isinstance h a = true) args →
  forallb (Atom.isinstance h) args = true.
Proof.
  intros Hargs. apply forallb_forall. intros a Ha%list_elem_of_In.
  by eapply Forall_forall in Hargs.
Qed.

(** Changes to one set object do not reach a structure built on another. *)
Lemma holds_mutate_other h self S l S0 (ops : list set_op) :
  AtomicStructure.holds h self S →
  h !! l = Some (Atom.OSet S0) →
  l ≠ AtomicStructure._atoms self →
  AtomicStructure.holds (mutate l ops h).2 self S.
Proof.
  intros [Hself Hatoms] Hl Hne.
  destruct (mutate_frame ops h l S0 Hl) as [_ Hrest].
  split; [by rewrite Hrest|].
  intros a Ha. apply Hatoms, isinstance_get in Ha as [atom Hatom].
  apply isinstance_get. exists atom.
  destruct a as [| | |la]; simpl in Hatom |- *; try discriminate.
  destruct (h !! la) as [[a0|]|] eqn:Hla; try discriminate.
  rewrite Hrest by (intros ->; congruence). by rewrite Hla.
Qed.

(** X6: a structure contains exactly what it was constructed from: after
    the constructor has returned, [member in self] is true of the
    arguments and false of every other value. *)
Theorem constructed_contains_its_arguments h (args : list value) :
  Forall (λ a, Atom.isinstance h a = true) args →
  ∃ self h',
    AtomicStructure.__init__ args h = (inr self, h') ∧
    ∀ member,
      AtomicStructure.__contains__ self member h'
      = (inr (bool_decide (member ∈ args)), h').
Proof.
  intros Hargs%all_atoms_forallb.
  destruct (init_holds h args Hargs) as (self & h' & Hinit & Hholds).
  exists self, h'. split; [done|]. intros member.
  rewrite (contains_spec _ _ _ _ Hholds). do 2 f_equal.
  apply bool_decide_ext, elem_of_list_to_set.
Qed.

(** X7: two structures built by two calls of the constructor never share
    their set of atoms, even when they are built from the same atoms:
    whatever is then added to or removed from the set of the second, the
    first holds the atoms it was built from. *)
Theorem separate_structures_are_independent h (args1 args2 : list value) :
  Forall (λ a, Atom.isinstance h a = true) args1 →
  Forall (λ a, Atom.isinstance h a = true) args2 →
  ∃ first h1 second h2,
    AtomicStructure.__init__ args1 h = (inr first, h1) ∧
    AtomicStructure.__init__ args2 h1 = (inr second, h2) ∧
    AtomicStructure._atoms first ≠ AtomicStructure._atoms second ∧
    AtomicStructure.holds h2 second (list_to_set args2) ∧
    ∀ ops : list set_op,
      AtomicStructure.holds
        (mutate (AtomicStructure._atoms second) ops h2).2 first (list_to_set args1).
Proof.
  intros Hargs1 Hargs2.
  destruct (init_holds h args1 (all_atoms_forallb _ _ Hargs1))
    as (first & h1 & Hinit1 & Hfirst).
  rewrite init_all_atoms in Hinit1 by (by apply all_atoms_forallb).
  injection Hinit1 as <- <-.
  set (h1 := <[fresh (dom h) := Atom.OSet (list_to_set args1)]> h) in *.
  assert (Forall (λ a, Atom.isinstance h1 a = true) args2) as Hargs2'.
  { eapply Forall_impl; [exact Hargs2|]. intros a Ha. by apply isinstance_alloc. }
  destruct (init_holds h1 args2 (all_atoms_forallb _ _ Hargs2'))
    as (second & h2 & Hinit2 & Hsecond).
  rewrite init_all_atoms in Hinit2 by (by apply all_atoms_forallb).
  injection Hinit2 as <- <-.
  assert (fresh (dom h) ≠ fresh (dom h1)) as Hne.
  { intros Heq. pose proof (fresh_unused h1) as Hnew.
    rewrite <- Heq in Hnew. unfold h1 in Hnew.
    by rewrite lookup_insert_eq in Hnew. }
  exists (AtomicStructure.Make (fresh (dom h))), h1,
    (AtomicStructure.Make (fresh (dom h1))),
    (<[fresh (dom h1) := Atom.OSet (list_to_set args2)]> h1).
  split; [by apply init_all_atoms, all_atoms_forallb|].
  split; [by apply init_all_atoms, all_atoms_forallb|].
  split; [exact Hne|]. split; [exact Hsecond|].
  intros ops. eapply holds_mutate_other; [|apply lookup_insert_eq|simpl; congruence].
  destruct Hfirst as [Hset Hatoms]. split.
  - rewrite lookup_insert_ne by (simpl; congruence). exact Hset.
  - intros a Ha. by apply isinstance_alloc, Hatoms.
Qed.

Lemma elem_of_selected h element S a :
  a ∈ selected h element S ↔
  a ∈ S ∧ (truth h element = true → has_element h element a = true).
Proof.
  unfold selected. destruct (truth h element).
  - rewrite elem_of_filter. split.
    + intros [Hp Ha]. split; [done|]. intros _. by apply Is_true_true.
    + intros [Ha Hp]. split; [|done]. apply Is_true_true. by apply Hp.
  - split; [intros Ha; by split | by intros [Ha _]].
Qed.

(** X8: [atom] returns [None] exactly when no atom of the structure is
    selected, and otherwise returns one of the selected atoms: a member of
    the structure, whose element is the one asked for when the selector
    counts as true. *)
Theorem atom_returns_a_selected_atom_or_none h self S element :
  AtomicStructure.holds h self S →
  defined h element →
  ∃ v h',
    AtomicStructure.atom self [element] [] h = (inr v, h') ∧
    ((v = VNone ∧ selected h element S = ∅) ∨
     (v ∈ S ∧ Atom.isinstance h v = true ∧
      (truth h element = true → has_element h element v = true))).
Proof.
  intros Hholds Hdef.
  destruct (atoms_spec h self S element Hholds Hdef) as (l & h' & Hrun & _ & Hl & _).
  unfold AtomicStructure.atom.
  erewrite bind_inr by (rewrite call_atoms_positional; exact Hrun).
  erewrite bind_inr by (by apply list_spec).
  destruct (elements (selected h element S)) as [|a rest] eqn:Hsel.
  - exists VNone, h'. split; [done|]. left. split; [done|].
    by apply leibniz_equiv, elements_empty_inv.
  - exists a, h'. split; [done|]. right.
    assert (a ∈ selected h element S) as Ha
      by (apply elem_of_elements; rewrite Hsel; left).
    apply elem_of_selected in Ha as [Ha Hp].
    split; [done|]. split; [by apply Hholds | done].
Qed.

(** X9: called with a non-empty string, [atoms] returns exactly the atoms
    of the structure whose element is that string: every one of them, and
    nothing else. *)
Theorem atoms_by_element_is_exact h self S (e : string) :
  AtomicStructure.holds h self S →
  e ≠ "" →
  ∃ l h' R,
    AtomicStructure.atoms self (VStr e) h = (inr l, h') ∧
    h' !! l = Some (Atom.OSet R) ∧
    ∀ a, a ∈ R ↔
         a ∈ S ∧ ∃ atom, Atom.get h a = Some atom ∧ Atom._element atom = e.
Proof.
  intros Hholds He.
  destruct (atoms_spec h self S (VStr e) Hholds I) as (l & h' & Hrun & _ & Hl & _).
  exists l, h', (selected h (VStr e) S). do 2 (split; [done|]).
  intros a. rewrite elem_of_selected.
  assert (truth h (VStr e) = true) as ->.
  { simpl. apply negb_true_iff, String.eqb_neq, He. }
  unfold has_element. split.
  - intros [Ha Hp]. split; [done|]. specialize (Hp eq_refl).
    destruct (Atom.get h a) as [atom|]; [|discriminate].
    exists atom. split; [done|]. apply bool_decide_eq_true in Hp. congruence.
  - intros [Ha (atom & -> & <-)]. split; [done|]. intros _.
    by apply bool_decide_eq_true.
Qed.

End Ownership.

(** ** Formulas *)

Section Formula.
Context {num : Type}.
Implicit Types (h : heap num) (S G : gset value) (counts : gmap string Z).

Lemma comprehension_element h (xs : list value) :
  Forall (λ a, Atom.isinstance h a = true) xs →
  comprehension Atom.element xs h = (inr (map (element_in h) xs), h).
Proof.
  intros Hxs.
  destruct (comprehension_method Atom._element h xs Hxs) as (ys & Hrun & Hys).
  unfold Atom.element. rewrite Hrun. do 2 f_equal.
  clear Hrun Hxs. induction Hys as [|a y xs ys (atom & Hatom & ->) _ IH]; [done|].
  cbn [map]. rewrite <- IH. unfold element_in. by rewrite Hatom.
Qed.

Lemma formula_spec h self S :
  AtomicStructure.holds h self S →
  AtomicStructure.formula self h
  = (inr (Counter (map (element_in h) (elements S))), h).
Proof.
  intros Hholds. unfold AtomicStructure.formula.
  erewrite bind_inr by (apply list_spec, Hholds).
  erewrite bind_inr by (eapply comprehension_element, members_are_atoms, Hholds).
  reflexivity.
Qed.

(** Counting one more item. *)
Lemma count_one_more counts (x e : string) :
  count_of (<[x := default 0 (counts !! x) + 1]> counts) e
  = count_of counts e + (if decide (x = e) then 1 else 0).
Proof.
  unfold count_of. destruct (decide (x = e)) as [->|Hne].
  - by rewrite lookup_insert_eq.
  - rewrite lookup_insert_ne by done. lia.
Qed.

Lemma count_from counts (xs : list string) (e : string) :
  count_of (foldl (λ c x, <[x := default 0 (c !! x) + 1]> c) counts xs) e
  = count_of counts e + Z.of_nat (length (filter (λ x, x = e) xs)).
Proof.
  revert counts. induction xs as [|x xs IH]; intros counts; simpl; [lia|].
  rewrite IH, count_one_more, filter_cons.
  destruct (decide (x = e)); simpl; lia.
Qed.

Lemma keys_from counts (xs : list string) (e : string) :
  foldl (λ c x, <[x := default 0 (c !! x) + 1]> c) counts xs !! e = None ↔
  counts !! e = None ∧ e ∉ xs.
Proof.
  revert counts. induction xs as [|x xs IH]; intros counts; simpl.
  - split; [intros Hc; split; [done|apply not_elem_of_nil] | by intros [Hc _]].
  - rewrite IH, not_elem_of_cons. destruct (decide (x = e)) as [->|Hne].
    + rewrite lookup_insert_eq. split; [by intros [? _] | by intros (_ & ? & _)].
    + rewrite lookup_insert_ne by done. split; [intros [? ?]|intros (? & ? & ?)]; auto.
Qed.

Lemma sum_values_one_more counts (x : string) :
  sum_values (<[x := default 0 (counts !! x) + 1]> counts) = sum_values counts + 1.
Proof.
  unfold sum_values.
  assert (∀ (j1 j2 : string) (z1 z2 y : Z), z1 + (z2 + y) = z2 + (z1 + y)) as Hcomm
    by (intros; lia).
  destruct (counts !! x) as [n|] eqn:Hx; simpl.
  - rewrite <- (insert_delete_eq counts).
    rewrite <- (insert_delete_id counts x n Hx) at 2.
    rewrite !map_fold_insert_L;
      [lia | intros; apply Hcomm; done | apply lookup_delete_eq
           | intros; apply Hcomm; done | apply lookup_delete_eq].
  - rewrite map_fold_insert_L; [lia | intros; apply Hcomm; done | done].
Qed.

Lemma sum_values_from counts (xs : list string) :
  sum_values (foldl (λ c x, <[x := default 0 (c !! x) + 1]> c) counts xs)
  = sum_values counts + Z.of_nat (length xs).
Proof.
  revert counts. induction xs as [|x xs IH]; intros counts; simpl; [lia|].
  rewrite IH, sum_values_one_more. lia.
Qed.

(** The members that satisfy a test, counted in the set or in the list of
    its elements. *)
Lemma size_filter_elements (P : value → bool) S :
  size (filter (λ a, P a) S) = length (filter (λ a, P a) (elements S)).
Proof.
  unfold size, set_size. simpl. apply Permutation_length.
  apply NoDup_Permutation; [apply NoDup_elements| |].
  - apply NoDup_filter, NoDup_elements.
  - intros a. by rewrite elem_of_elements, elem_of_filter, list_elem_of_filter,
      elem_of_elements.
Qed.

Lemma count_atoms_by_element h (xs : list value) (e : string) :
  Forall (λ a, Atom.isinstance h a = true) xs →
  length (filter (λ x, x = e) (map (element_in h) xs))
  = length (filter (λ a, has_element h (VStr e) a) xs).
Proof.
  induction 1 as [|a xs Ha _ IH]; [done|].
  apply isinstance_get in Ha as [atom Hatom].
  assert (element_in h a = Atom._element atom) as Helem
    by (unfold element_in; by rewrite Hatom).
  assert (has_element h (VStr e) a = bool_decide (Atom._element atom = e)) as Hhas.
  { unfold has_element. rewrite Hatom. apply bool_decide_ext.
    split; [by intros [= ->] | by intros ->]. }
  cbn [map]. rewrite !filter_cons, Helem, Hhas.
  destruct (decide (Atom._element atom = e)) as [Heq|Hne].
  - rewrite bool_decide_eq_true_2, (decide_True (P := Is_true true)) by done.
    simpl. by rewrite IH.
  - rewrite bool_decide_eq_false_2, (decide_False (P := Is_true false)) by (done || exact id).
    exact IH.
Qed.

Lemma count_members_by_element h S (e : string) :
  (∀ a, a ∈ S → Atom.isinstance h a = true) →
  length (filter (λ x, x = e) (map (element_in h) (elements S)))
  = size (filter (λ a, has_element h (VStr e) a) S).
Proof.
  intros Hatoms. rewrite size_filter_elements.
  apply count_atoms_by_element, Forall_forall.
  intros a Ha%elem_of_elements. auto.
Qed.

(** X10: [formula] counts the atoms of the structure element by element:
    the count it gives for an element is the number of member atoms of that
    element, and an element has no entry at all exactly when no member atom
    is of that element. *)
Theorem formula_counts_atoms_by_element h self S :
  AtomicStructure.holds h self S →
  ∃ counts,
    AtomicStructure.formula self h = (inr counts, h) ∧
    ∀ e : string,
      count_of counts e
        = Z.of_nat (size (filter (λ a, has_element h (VStr e) a) S)) ∧
      (counts !! e = None ↔ ∀ a, a ∈ S → has_element h (VStr e) a = false).
Proof.
  intros Hholds. eexists. split; [by apply formula_spec|].
  intros e. unfold Counter. split.
  - rewrite count_from, count_members_by_element by apply Hholds.
    unfold count_of. by rewrite lookup_empty.
  - rewrite keys_from, lookup_empty. split.
    + intros [_ Hout] a Ha. destruct (has_element h (VStr e) a) eqn:Hhas; [|done].
      exfalso. apply Hout. unfold has_element in Hhas.
      destruct (Atom.get h a) as [atom|] eqn:Hatom; [|done].
      apply bool_decide_eq_true in Hhas. injection Hhas as <-.
      apply list_elem_of_In, in_map_iff. exists a. split.
      * unfold element_in. by rewrite Hatom.
      * by apply list_elem_of_In, elem_of_elements.
    + intros Hnone. split; [done|].
      intros (a & <- & Ha%list_elem_of_In%elem_of_elements)%list_elem_of_In%in_map_iff.
      specialize (Hnone a Ha). unfold has_element, element_in in *.
      destruct Hholds as [_ Hatoms].
      apply Hatoms, isinstance_get in Ha as [atom Hatom].
      rewrite Hatom in Hnone. simpl in Hnone.
      by apply bool_decide_eq_false in Hnone.
Qed.

(** X11: the counts of a formula add up to the number of atoms of the
    structure. *)
Theorem formula_counts_add_up h self S :
  AtomicStructure.holds h self S →
  ∃ counts,
    AtomicStructure.formula self h = (inr counts, h) ∧
    sum_values counts = Z.of_nat (size S).
Proof.
  intros Hholds. eexists. split; [by apply formula_spec|].
  unfold Counter. rewrite sum_values_from, length_map.
  unfold sum_values. rewrite map_fold_empty. reflexivity.
Qed.

(** X12: formulas add: when the atoms of a structure are split between
    two structures, its count for every element is the sum of their
    counts. *)
Theorem formula_is_additive h self S left G1 right G2 :
  AtomicStructure.holds h self S →
  AtomicStructure.holds h left G1 →
  AtomicStructure.holds h right G2 →
  S = G1 ∪ G2 →
  G1 ## G2 →
  ∃ counts counts1 counts2,
    AtomicStructure.formula self h = (inr counts, h) ∧
    AtomicStructure.formula left h = (inr counts1, h) ∧
    AtomicStructure.formula right h = (inr counts2, h) ∧
    ∀ e, count_of counts e = count_of counts1 e + count_of counts2 e.
Proof.
  intros Hself Hleft Hright -> Hdisj.
  eexists _, _, _. do 3 (split; [by apply formula_spec|]).
  intros e. unfold Counter. rewrite !count_from.
  rewrite !count_members_by_element by (apply Hself || apply Hleft || apply Hright).
  rewrite (leibniz_equiv _ _ (filter_union _ G1 G2)).
  rewrite size_union by (by apply disjoint_filter).
  unfold count_of. rewrite lookup_empty. simpl. lia.
Qed.

End Formula.

(** ** Translation and rotation *)

Section Transforms.
Context {num : Type}.
Implicit Types (h : heap num) (S : gset value) (l : loc).

Lemma set_location_spec h l atom (p : point num) :
  Atom.get h (VRef l) = Some atom →
  Atom.set_location (VRef l) p h = (inr tt, <[l := Atom.OAtom (placed atom p)]> h).
Proof.
  intros Hget. unfold Atom.set_location. rewrite Hget.
  by destruct p as [[x y] z].
Qed.

Lemma get_update_other h l (o : Atom.obj num) (v : value) :
  v ≠ VRef l → Atom.get (<[l := o]> h) v = Atom.get h v.
Proof.
  intros Hne. destruct v as [| | |l0]; simpl; try done.
  rewrite lookup_insert_ne; [done | congruence].
Qed.

(** The loop that writes the points back, on distinct atoms: it visits the
    atoms in order, gives each the point at its own index, and stops with
    an [IndexError] at the first index that has no point; the atoms
    visited before that have been moved, all other objects are as they
    were. *)
Lemma write_back_spec (atoms : list value) (points : list (point num)) k h :
  NoDup atoms →
  Forall (λ a, Atom.isinstance h a = true) atoms →
  ∃ h',
    AtomicStructure.write_back k atoms points h
    = (if decide (length atoms ≤ length points - k)%nat then inr tt
       else inl (Exn IndexError (VInt (Z.of_nat (k + (length points - k))))), h') ∧
    (∀ i a atom, atoms !! i = Some a → Atom.get h a = Some atom →
       Atom.get h' a = Some (from_option (placed atom) atom (points !! (k + i)%nat))) ∧
    (∀ l, VRef l ∉ atoms → h' !! l = h !! l).
Proof.
  intros Hnodup Hatoms. revert k h Hatoms.
  induction atoms as [|a rest IH]; intros k h Hatoms.
  { exists h. split; [|split]; [| intros i a atom Hi; by rewrite lookup_nil in Hi | done].
    cbn [AtomicStructure.write_back].
    destruct (decide _) as [|Hn]; [done|]. exfalso. apply Hn. simpl. lia. }
  apply NoDup_cons in Hnodup as [Hfirst Hrest].
  apply Forall_cons in Hatoms as [Ha Hatoms].
  apply isinstance_get in Ha as [atom0 Hatom0].
  destruct a as [| | |l0]; try discriminate Hatom0.
  cbn [AtomicStructure.write_back].
  destruct (points !! k) as [p|] eqn:Hp.
  - apply lookup_lt_Some in Hp as Hk.
    set (h1 := <[l0 := Atom.OAtom (placed atom0 p)]> h).
    assert (∀ b, b ∈ rest → Atom.get h1 b = Atom.get h b) as Hsame.
    { intros b Hb. apply get_update_other. by intros ->. }
    destruct (IH Hrest (Datatypes.S k) h1) as (h' & Hrun & Hmoved & Hframe).
    { apply Forall_forall. intros b Hb. apply isinstance_get.
      rewrite Hsame by done. apply isinstance_get.
      by eapply Forall_forall in Hatoms. }
    exists h'. split; [|split].
    + erewrite bind_inr by (by apply set_location_spec).
      cbv beta. fold h1. rewrite Hrun. f_equal. simpl.
      destruct (decide (length rest ≤ length points - Datatypes.S k)%nat),
        (decide (Datatypes.S (length rest) ≤ length points - k)%nat); try lia; [done|].
      do 4 f_equal. lia.
    + intros [|i] a atom Hi Hget; simpl in Hi.
      * injection Hi as <-. rewrite Hatom0 in Hget. injection Hget as <-.
        rewrite Nat.add_0_r, Hp. simpl.
        rewrite Hframe by done. unfold h1. by rewrite lookup_insert_eq.
      * replace (k + Datatypes.S i)%nat with (Datatypes.S k + i)%nat by lia.
        apply Hmoved; [done|]. rewrite Hsame; [done|].
        apply list_elem_of_lookup. by exists i.
    + intros l Hl. apply not_elem_of_cons in Hl as [Hne Hl].
      rewrite Hframe by done. unfold h1. rewrite lookup_insert_ne; [done|congruence].
  - apply lookup_ge_None in Hp.
    exists h. split; [|split]; [| |done].
    + unfold raise. f_equal.
      destruct (decide _) as [Hle|]; [simpl in Hle; lia|].
      do 4 f_equal. lia.
    + intros i a atom Hi Hget.
      rewrite (proj2 (lookup_ge_None points (k + i)%nat)) by lia. by rewrite Hget.
Qed.

Lemma cloud_unique h S (cloud cloud' : list (point num)) :
  cloud_of h S cloud → cloud_of h S cloud' → cloud = cloud'.
Proof.
  unfold cloud_of. generalize (elements S). intros atoms Hc. revert cloud'.
  induction Hc as [|a p atoms cloud (atom & Hatom & ->) _ IH];
    intros cloud' Hc'; inversion Hc' as [|? p' ? rest' (atom' & Hatom' & ->) Hrest]; subst;
    [done|].
  rewrite Hatom in Hatom'. injection Hatom' as <-. f_equal. by apply IH.
Qed.

Lemma cloud_exists h self S :
  AtomicStructure.holds h self S →
  ∃ cloud, comprehension Atom.location (elements S) h = (inr cloud, h) ∧
           cloud_of h S cloud.
Proof.
  intros Hholds.
  by apply (comprehension_method Atom.location_of), (members_are_atoms h self).
Qed.

(** What [translate] and [rotate] have in common: the point cloud of the
    structure is handed to the library function [lib], and what it returns
    is written back. *)
Lemma transform_spec (lib : list (point num) → exn + list (point num))
    h self S cloud :
  AtomicStructure.holds h self S →
  cloud_of h S cloud →
  (let! atoms := list_ (AtomicStructure._atoms self) in
   let! cloud := comprehension Atom.location atoms in
   let! points := lift (lib cloud) in
   AtomicStructure.write_back 0 atoms points) h
  = match lib cloud with
    | inl e => (inl e, h)
    | inr points => AtomicStructure.write_back 0 (elements S) points h
    end.
Proof.
  intros Hholds Hcloud.
  destruct (cloud_exists h self S Hholds) as (cloud' & Hrun & Hcloud').
  rewrite (cloud_unique _ _ _ _ Hcloud' Hcloud) in Hrun.
  erewrite bind_inr by (apply list_spec, Hholds).
  erewrite bind_inr by exact Hrun.
  unfold bind, lift. by destruct (lib cloud).
Qed.

End Transforms.

Section Moves.
Context {num : Type} `{!Number num, !PeriodicTable num, !Geometrica num}.
Implicit Types (h : heap num) (S : gset value) (l : loc).

Local Abbreviation transform lib self :=
  (let! atoms := list_ (AtomicStructure._atoms self) in
   let! cloud := comprehension Atom.location atoms in
   let! points := lift (lib cloud) in
   AtomicStructure.write_back 0 atoms points).

Lemma element_placed (atom : Atom.t num) (o : option (point num)) :
  Atom._element (from_option (placed atom) atom o) = Atom._element atom.
Proof. by destruct o. Qed.

(** Whatever the library function returns, the transformed structure holds
    the same atoms, every atom has the element it had, and objects that
    are not atoms of the structure are as they were. *)
Lemma transform_outcome (lib : list (point num) → exn + list (point num)) h self S :
  AtomicStructure.holds h self S →
  ∃ r h',
    transform lib self h = (r, h') ∧
    AtomicStructure.holds h' self S ∧
    (∀ a, Atom._element <$> Atom.get h' a = Atom._element <$> Atom.get h a) ∧
    (∀ l, VRef l ∉ S → h' !! l = h !! l).
Proof.
  intros Hholds.
  destruct (cloud_exists h self S Hholds) as (cloud & _ & Hcloud).
  rewrite (transform_spec lib h self S cloud Hholds Hcloud).
  destruct (lib cloud) as [e|points]; [by exists (inl e), h|].
  destruct (write_back_spec (elements S) points 0 h (NoDup_elements S)
              (members_are_atoms h self S Hholds)) as (h' & Hrun & Hmoved & Hframe).
  eexists _, h'. split; [exact Hrun|].
  assert (∀ l, VRef l ∉ S → h' !! l = h !! l) as Hframe'.
  { intros l Hl. apply Hframe. by rewrite elem_of_elements. }
  assert (∀ a, Atom._element <$> Atom.get h' a = Atom._element <$> Atom.get h a)
    as Helements.
  { intros a. destruct (decide (a ∈ S)) as [Ha|Ha].
    - pose proof Ha as [i Hi]%elem_of_elements%list_elem_of_lookup.
      destruct Hholds as [_ Hatoms].
      apply Hatoms, isinstance_get in Ha as [atom Hatom].
      rewrite (Hmoved i a atom Hi Hatom), Hatom. simpl.
      by rewrite element_placed.
    - destruct a as [| | |l]; try done. simpl. by rewrite Hframe'. }
  split; [|done]. destruct Hholds as [Hself Hatoms]. split.
  - rewrite Hframe'; [done|]. intros Hin%Hatoms.
    unfold Atom.isinstance in Hin. simpl in Hin. by rewrite Hself in Hin.
  - intros a Ha%Hatoms. unfold Atom.isinstance in *.
    specialize (Helements a).
    destruct (Atom.get h a), (Atom.get h' a); done.
Qed.

(** The same, when the library function moves every point by [f]. *)
Lemma transform_pointwise (lib : list (point num) → exn + list (point num))
    (f : point num → point num) h self S :
  AtomicStructure.holds h self S →
  (∀ cloud, lib cloud = inr (map f cloud)) →
  ∃ h',
    transform lib self h = (inr tt, h') ∧
    AtomicStructure.holds h' self S ∧
    (∀ a atom, a ∈ S → Atom.get h a = Some atom →
       Atom.get h' a = Some (placed atom (f (Atom.location_of atom)))) ∧
    (∀ l, VRef l ∉ S → h' !! l = h !! l).
Proof.
  intros Hholds Hlib.
  destruct (transform_outcome lib h self S Hholds) as (r & h' & Hrun & Hholds' & _ & Hframe).
  destruct (cloud_exists h self S Hholds) as (cloud & _ & Hcloud).
  rewrite (transform_spec lib h self S cloud Hholds Hcloud), Hlib in Hrun.
  destruct (write_back_spec (elements S) (map f cloud) 0 h (NoDup_elements S)
              (members_are_atoms h self S Hholds)) as (h'' & Hrun' & Hmoved & _).
  rewrite Hrun' in Hrun. injection Hrun as <- <-.
  exists h''. split; [|split; [done|split; [|done]]].
  - rewrite (transform_spec lib h self S cloud Hholds Hcloud), Hlib, Hrun'.
    f_equal. apply decide_True.
    rewrite length_map, <- (Forall2_length _ _ _ Hcloud). lia.
  - intros a atom [i Hi]%elem_of_elements%list_elem_of_lookup Hatom.
    rewrite (Hmoved i a atom Hi Hatom). simpl.
    destruct (Forall2_lookup_l _ _ _ _ _ Hcloud Hi) as (p & Hp & atom' & Hatom' & ->).
    rewrite Hatom in Hatom'. injection Hatom' as <-.
    change (map f cloud) with (f <$> cloud).
    by rewrite list_lookup_fmap, Hp.
Qed.

(** X13: when the geometry library translates a point cloud point by
    point, [translate] succeeds, every atom of the structure ends at the
    image of its own coordinates and keeps its element, the structure holds
    the same atoms, and no other object changes. *)
Theorem translate_moves_every_atom h self S (dx dy dz : num)
    (f : point num → point num) :
  AtomicStructure.holds h self S →
  (∀ cloud, geo_translate cloud dx dy dz = inr (map f cloud)) →
  ∃ h',
    AtomicStructure.translate self dx dy dz h = (inr tt, h') ∧
    AtomicStructure.holds h' self S ∧
    (∀ a atom, a ∈ S → Atom.get h a = Some atom →
       Atom.get h' a = Some (placed atom (f (Atom.location_of atom)))) ∧
    (∀ l, VRef l ∉ S → h' !! l = h !! l).
Proof.
  intros Hholds Hlib.
  exact (transform_pointwise (λ cloud, geo_translate cloud dx dy dz) f h self S
           Hholds Hlib).
Qed.

(** X14: when the geometry library rotates a point cloud point by point,
    [rotate] succeeds, every atom of the structure ends at the image of its
    own coordinates and keeps its element, the structure holds the same
    atoms, and no other object changes. *)
Theorem rotate_moves_every_atom h self S (axis : value) (angle : num)
    (f : point num → point num) :
  AtomicStructure.holds h self S →
  (∀ cloud, geo_rotate cloud axis angle = inr (map f cloud)) →
  ∃ h',
    AtomicStructure.rotate self axis angle h = (inr tt, h') ∧
    AtomicStructure.holds h' self S ∧
    (∀ a atom, a ∈ S → Atom.get h a = Some atom →
       Atom.get h' a = Some (placed atom (f (Atom.location_of atom)))) ∧
    (∀ l, VRef l ∉ S → h' !! l = h !! l).
Proof.
  intros Hholds Hlib.
  exact (transform_pointwise (λ cloud, geo_rotate cloud axis angle) f h self S
           Hholds Hlib).
Qed.

Lemma mass_in_by_element h h' (a : value) :
  Atom._element <$> Atom.get h' a = Atom._element <$> Atom.get h a →
  mass_in h' a = mass_in h a.
Proof.
  unfold mass_in, Atom.mass_of.
  destruct (Atom.get h' a), (Atom.get h a); simpl; intros [=]; congruence.
Qed.

Lemma element_in_by_element h h' (a : value) :
  Atom._element <$> Atom.get h' a = Atom._element <$> Atom.get h a →
  element_in h' a = element_in h a.
Proof.
  unfold element_in.
  destruct (Atom.get h' a), (Atom.get h a); simpl; intros [=]; congruence.
Qed.

(** X15: neither [translate] nor [rotate] can change what a structure is
    made of.  Whatever the geometry library returns, and whether the call
    succeeds or raises, afterwards the structure holds the same atoms,
    every atom has the element it had, and [mass] and [formula] return what
    they returned before. *)
Theorem transforms_keep_mass_and_formula h self S (dx dy dz : num)
    (axis : value) (angle : num) :
  AtomicStructure.holds h self S →
  ∀ h',
    h' = (AtomicStructure.translate self dx dy dz h).2 ∨
    h' = (AtomicStructure.rotate self axis angle h).2 →
    AtomicStructure.holds h' self S ∧
    (∀ a, Atom._element <$> Atom.get h' a = Atom._element <$> Atom.get h a) ∧
    (AtomicStructure.mass self h').1 = (AtomicStructure.mass self h).1 ∧
    (AtomicStructure.formula self h').1 = (AtomicStructure.formula self h).1.
Proof.
  intros Hholds h' Hh'.
  assert (AtomicStructure.holds h' self S ∧
          ∀ a, Atom._element <$> Atom.get h' a = Atom._element <$> Atom.get h a)
    as [Hholds' Helements].
  { destruct Hh' as [-> | ->].
    - destruct (transform_outcome (λ cloud, geo_translate cloud dx dy dz) h self S
                  Hholds) as (r & h' & Hrun & Hholds' & Helements & _).
      unfold AtomicStructure.translate. by rewrite Hrun.
    - destruct (transform_outcome (λ cloud, geo_rotate cloud axis angle) h self S
                  Hholds) as (r & h' & Hrun & Hholds' & Helements & _).
      unfold AtomicStructure.rotate. by rewrite Hrun. }
  do 2 (split; [done|]).
  rewrite (mass_spec _ _ _ Hholds'), (mass_spec _ _ _ Hholds).
  rewrite (formula_spec _ _ _ Hholds'), (formula_spec _ _ _ Hholds). simpl.
  split; do 2 f_equal; apply map_ext; intros a;
    [by apply mass_in_by_element | by apply element_in_by_element].
Qed.

(** X16: an exception raised by the geometry library, of whatever class,
    comes out of [translate] and of [rotate] as it is, and the heap is then
    exactly as it was before the call. *)
Theorem library_errors_pass_through h self S cloud (e : exn)
    (dx dy dz : num) (axis : value) (angle : num) :
  AtomicStructure.holds h self S →
  cloud_of h S cloud →
  (geo_translate cloud dx dy dz = inl e →
     AtomicStructure.translate self dx dy dz h = (inl e, h)) ∧
  (geo_rotate cloud axis angle = inl e →
     AtomicStructure.rotate self axis angle h = (inl e, h)).
Proof.
  intros Hholds Hcloud. split; intros Hlib.
  - unfold AtomicStructure.translate.
    rewrite (transform_spec (λ cloud, geo_translate cloud dx dy dz) h self S cloud
               Hholds Hcloud). by rewrite Hlib.
  - unfold AtomicStructure.rotate.
    rewrite (transform_spec (λ cloud, geo_rotate cloud axis angle) h self S cloud
               Hholds Hcloud). by rewrite Hlib.
Qed.

(** X17: [translate] writes the points back one atom at a time and trusts
    the library for their number.  If the library returns fewer points than
    the structure has atoms, [translate] raises [IndexError] at the first
    index without a point, and by then the atoms visited earlier have been
    moved: each atom that has a point at its index is at that point, the
    others are where they were. *)
Theorem translate_short_of_points h self S cloud (points : list (point num))
    (dx dy dz : num) :
  AtomicStructure.holds h self S →
  cloud_of h S cloud →
  geo_translate cloud dx dy dz = inr points →
  (length points < size S)%nat →
  ∃ h',
    AtomicStructure.translate self dx dy dz h
    = (inl (Exn IndexError (VInt (Z.of_nat (length points)))), h') ∧
    ∀ i a atom,
      elements S !! i = Some a → Atom.get h a = Some atom →
      Atom.get h' a = Some (from_option (placed atom) atom (points !! i)).
Proof.
  intros Hholds Hcloud Hlib Hshort.
  destruct (write_back_spec (elements S) points 0 h (NoDup_elements S)
              (members_are_atoms h self S Hholds)) as (h' & Hrun & Hmoved & _).
  exists h'. split; [|exact Hmoved].
  unfold AtomicStructure.translate.
  rewrite (transform_spec (λ cloud, geo_translate cloud dx dy dz) h self S cloud
             Hholds Hcloud), Hlib, Hrun.
  f_equal. unfold size, set_size in Hshort. simpl in Hshort.
  destruct (decide _) as [Hle|]; [lia|]. do 4 f_equal. lia.
Qed.

End Moves.

(** ** The empty structure, and the printed form *)

Section Edges.
Context {num : Type} `{!Number num, !PeriodicTable num}.
Implicit Types (h : heap num) (S : gset value).

Lemma repr_spec h self S :
  AtomicStructure.holds h self S →
  AtomicStructure.__repr__ self h
  = (inr ("<AtomicStructure (" ++ str_ (Z.of_nat (size S)) ++ " atoms)>")%string, h).
Proof.
  intros [Hself _]. unfold AtomicStructure.__repr__, len_.
  erewrite bind_inr; [reflexivity|].
  by erewrite bind_inr by (by apply as_set_spec).
Qed.

(** X18: a structure without atoms is a structure like any other: its mass
    is zero, its formula has no entry, [atom()] returns [None], [in] is
    false of everything, and it prints as holding 0 atoms. *)
Theorem empty_structure_is_usable h self :
  AtomicStructure.holds h self ∅ →
  AtomicStructure.mass self h = (inr zero, h) ∧
  AtomicStructure.formula self h = (inr ∅, h) ∧
  (∃ h', AtomicStructure.atom self [] [] h = (inr VNone, h')) ∧
  (∀ member, AtomicStructure.__contains__ self member h = (inr false, h)) ∧
  AtomicStructure.__repr__ self h = (inr "<AtomicStructure (0 atoms)>", h).
Proof.
  intros Hholds.
  split; [by rewrite (mass_spec _ _ _ Hholds), elements_empty|].
  split; [by rewrite (formula_spec _ _ _ Hholds), elements_empty|].
  split; [|split].
  - destruct (atoms_spec h self ∅ VNone Hholds I) as (l & h' & Hrun & _ & Hl & _).
    exists h'. unfold AtomicStructure.atom.
    erewrite bind_inr by (rewrite call_atoms_bare; exact Hrun).
    erewrite bind_inr by (by apply list_spec).
    unfold selected. simpl. by rewrite elements_empty.
  - intros member. rewrite (contains_spec _ _ _ _ Hholds).
    by rewrite bool_decide_eq_false_2 by apply not_elem_of_empty.
  - by rewrite (repr_spec _ _ _ Hholds), size_empty.
Qed.

Lemma append_cancel_r (s1 s2 t : string) :
  (s1 ++ t)%string = (s2 ++ t)%string → s1 = s2.
Proof.
  revert s2. induction s1 as [|c s1 IH]; intros [|c' s2] Heq.
  - done.
  - apply (f_equal String.length) in Heq.
    rewrite !length_append in Heq. simpl in Heq. lia.
  - apply (f_equal String.length) in Heq.
    rewrite !length_append in Heq. simpl in Heq. lia.
  - change (String c (s1 ++ t) = String c' (s2 ++ t))%string in Heq.
    injection Heq as -> Heq. f_equal. by apply IH.
Qed.

Lemma append_cancel_l (t s1 s2 : string) :
  (t ++ s1)%string = (t ++ s2)%string → s1 = s2.
Proof.
  induction t as [|c t IH]; intros Heq; [exact Heq|].
  change (String c (t ++ s1) = String c (t ++ s2))%string in Heq.
  injection Heq as Heq. by apply IH.
Qed.

Lemma str_inj (n m : Z) : str_ n = str_ m → n = m.
Proof.
  unfold str_. intros Heq. apply DecimalZ.to_int_inj.
  apply (f_equal NilEmpty.int_of_string) in Heq.
  rewrite !NilEmpty.isi in Heq. congruence.
Qed.

(** X19: the printed form of a structure tells the number of its atoms, and
    nothing else: printing changes nothing, and two structures print alike
    exactly when they hold the same number of atoms. *)
Theorem repr_tells_the_number_of_atoms h1 self1 S1 h2 self2 S2 :
  AtomicStructure.holds h1 self1 S1 →
  AtomicStructure.holds h2 self2 S2 →
  ∃ r1 r2,
    AtomicStructure.__repr__ self1 h1 = (inr r1, h1) ∧
    AtomicStructure.__repr__ self2 h2 = (inr r2, h2) ∧
    (r1 = r2 ↔ size S1 = size S2).
Proof.
  intros Hholds1 Hholds2. eexists _, _.
  do 2 (split; [by apply repr_spec|]). split.
  - intros Heq. injection Heq as Heq.
    by apply append_cancel_l, append_cancel_r, str_inj, Nat2Z.inj in Heq.
  - by intros ->.
Qed.

End Edges.

(** ** Mass and membership *)

Section MassOfMembers.
Context {num : Type} `{!Number num, !PeriodicTable num}.
Implicit Types (h : heap num) (S : gset value).

Hypothesis add_assoc : ∀ a b c : num, add a (add b c) = add (add a b) c.
Hypothesis add_comm : ∀ a b : num, add a b = add b a.
Hypothesis add_zero_l : ∀ a : num, add zero a = a.

Lemma mass_in_set_update h l S S' (a : value) :
  h !! l = Some (Atom.OSet S) →
  mass_in (<[l := Atom.OSet S']> h) a = mass_in h a.
Proof. intros Hl. unfold mass_in. by rewrite (get_set_update _ _ S). Qed.

Lemma total_set_update h l S S' (G : gset value) :
  h !! l = Some (Atom.OSet S) →
  total (<[l := Atom.OSet S']> h) G = total h G.
Proof.
  intros Hl. unfold total. f_equal. apply map_ext. intros a.
  by apply (mass_in_set_update _ _ S).
Qed.

Lemma total_singleton h (a : value) : total h {[a]} = mass_in h a.
Proof.
  unfold total. rewrite elements_singleton. simpl.
  unfold AtomicStructure.sum. simpl. apply add_zero_l.
Qed.

(** X20: in exact arithmetic, [mass] follows [add_atom] and [remove_atom]:
    after an atom that was not a member has been added, the mass is the
    mass before plus the mass of that atom; after a member has been
    removed, the mass before is the mass after plus the mass of that
    atom. *)
Theorem mass_follows_membership h self S atom a m :
  AtomicStructure.holds h self S →
  Atom.get h atom = Some a →
  AtomicStructure.mass self h = (inr m, h) →
  (atom ∉ S →
     ∃ h',
       (AtomicStructure.add_atom self atom ;; AtomicStructure.mass self) h
       = (inr (add (Atom.mass_of a) m), h')) ∧
  (atom ∈ S →
     ∃ m' h',
       (AtomicStructure.remove_atom self atom ;; AtomicStructure.mass self) h
       = (inr m', h') ∧
       m = add (Atom.mass_of a) m').
Proof.
  intros Hholds Hatom Hmass.
  rewrite (mass_spec _ _ _ Hholds) in Hmass. injection Hmass as <-.
  fold (total h S).
  assert (mass_in h atom = Atom.mass_of a) as Hm
    by (unfold mass_in; by rewrite Hatom).
  assert (Atom.isinstance h atom = true) as Hisatom
    by (apply isinstance_get; by exists a).
  split.
  - intros Hnew. eexists.
    erewrite bind_inr by (by apply add_atom_spec).
    rewrite (mass_spec _ self ({[atom]} ∪ S)).
    2:{ apply (holds_set_update h self S); [done|].
        intros b [->%elem_of_singleton|Hb]%elem_of_union; [done|]. by apply Hholds. }
    fold (total (<[AtomicStructure._atoms self := Atom.OSet ({[atom]} ∪ S)]> h)
            ({[atom]} ∪ S)).
    rewrite (total_set_update _ _ S) by apply Hholds.
    rewrite (total_union add_assoc add_comm add_zero_l).
    2:{ apply elem_of_disjoint. intros b ->%elem_of_singleton. done. }
    by rewrite total_singleton, Hm.
  - intros Hin. eexists _, _. split.
    + erewrite bind_inr
        by (apply (set_remove_member h _ S); [apply Hholds | done]).
      rewrite (mass_spec _ self (S ∖ {[atom]})); [reflexivity|].
      apply (holds_set_update h self S); [done|].
      intros b [Hb _]%elem_of_difference. by apply Hholds.
    + fold (total (<[AtomicStructure._atoms self := Atom.OSet (S ∖ {[atom]})]> h)
              (S ∖ {[atom]})).
      rewrite (total_set_update _ _ S) by apply Hholds.
      rewrite <- Hm, <- total_singleton.
      rewrite <- (total_union add_assoc add_comm add_zero_l).
      2:{ apply elem_of_disjoint. intros b ->%elem_of_singleton [_ Hb]%elem_of_difference.
          by apply Hb, elem_of_singleton. }
      by rewrite remove_then_add_set.
Qed.

End MassOfMembers.

(** ** The further properties at work *)

Section MoreRuns.
Import World.

Lemma shelf_holds_organic : AtomicStructure.holds shelf organic {[ carbon; hydrogen ]}.
Proof.
  split; [reflexivity|].
  intros a. rewrite elem_of_union, !elem_of_singleton. intros [->| ->]; reflexivity.
Defined.

Lemma shelf_holds_rest : AtomicStructure.holds shelf rest {[ mysterium ]}.
Proof.
  split; [reflexivity|]. intros a ->%elem_of_singleton. reflexivity.
Defined.

Lemma shelf_holds_molecule : AtomicStructure.holds shelf molecule members.
Proof.
  split; [reflexivity|].
  intros a [->|[->| ->]]%members_cases; reflexivity.
Defined.

Lemma vacant_holds_nothing : AtomicStructure.holds vacant nothing ∅.
Proof. split; [reflexivity|]. intros a Ha. by apply not_elem_of_empty in Ha. Defined.

Lemma mysterium_is_no_organic : mysterium ∉ ({[ carbon; hydrogen ]} : gset value).
Proof. rewrite elem_of_union, !elem_of_singleton. intros [?|?]; discriminate. Defined.

Lemma carbon_is_a_member : carbon ∈ members.
Proof. unfold members. rewrite !elem_of_union, !elem_of_singleton. tauto. Defined.

Lemma lab_atoms : Forall (λ a, Atom.isinstance lab a = true) [carbon; hydrogen; mysterium].
Proof. repeat constructor. Defined.

Lemma bench_cloud : cloud_of bench members [(0, 1, 0); (1, 0, 0); (0, 0, 0)].
Proof.
  unfold cloud_of.
  replace (elements members) with [mysterium; hydrogen; carbon]
    by (vm_compute; reflexivity).
  repeat constructor; eexists; (split; [reflexivity|reflexivity]).
Defined.

(** X1 at work: a string is turned away. *)
Lemma add_atom_rejects_a_string :
  AtomicStructure.add_atom molecule (VStr "Atom1") bench
  = (inl (Exn TypeError (VStr "Atom1")), bench).
Proof.
  apply (add_atom_checks_then_adds bench molecule members (VStr "Atom1")
           bench_holds_molecule). reflexivity.
Defined.

(** X2 at work: a string is not a member. *)
Lemma remove_atom_misses_a_string :
  AtomicStructure.remove_atom molecule (VStr "Atom1") bench
  = (inl (Exn KeyError (VStr "Atom1")), bench).
Proof.
  apply (remove_atom_removes_or_raises bench molecule members (VStr "Atom1")
           bench_holds_molecule).
  intros [Heq|[Heq|Heq]]%members_cases; discriminate Heq.
Defined.

(** X3 at work *)
Lemma mysterium_comes_and_goes :
  (AtomicStructure.add_atom organic mysterium ;;
   AtomicStructure.remove_atom organic mysterium) shelf = (inr tt, shelf).
Proof.
  apply (add_then_remove_restores shelf organic {[ carbon; hydrogen ]} mysterium
           shelf_holds_organic); [reflexivity | exact mysterium_is_no_organic].
Defined.

(** X4 at work *)
Lemma carbon_goes_and_comes :
  (AtomicStructure.remove_atom molecule carbon ;;
   AtomicStructure.add_atom molecule carbon) bench = (inr tt, bench).
Proof.
  exact (remove_then_add_restores bench molecule members carbon
           bench_holds_molecule carbon_is_a_member).
Defined.

(** X5 at work *)
Lemma carbon_added_again :
  AtomicStructure.add_atom molecule carbon bench = (inr tt, bench).
Proof.
  exact (add_atom_twice_is_once bench molecule members carbon
           bench_holds_molecule carbon_is_a_member).
Defined.

(** X6 at work *)
Lemma molecule_contains_its_arguments :
  ∃ self h',
    AtomicStructure.__init__ [carbon; hydrogen; mysterium] lab = (inr self, h') ∧
    ∀ member,
      AtomicStructure.__contains__ self member h'
      = (inr (bool_decide (member ∈ [carbon; hydrogen; mysterium])), h').
Proof.
  exact (constructed_contains_its_arguments lab [carbon; hydrogen; mysterium]
           lab_atoms).
Defined.

(** X7 at work: two structures of the same three atoms. *)
Lemma twin_molecules_are_independent :
  ∃ first h1 second h2,
    AtomicStructure.__init__ [carbon; hydrogen; mysterium] lab = (inr first, h1) ∧
    AtomicStructure.__init__ [carbon; hydrogen; mysterium] h1 = (inr second, h2) ∧
    AtomicStructure._atoms first ≠ AtomicStructure._atoms second ∧
    AtomicStructure.holds h2 second (list_to_set [carbon; hydrogen; mysterium]) ∧
    ∀ ops : list set_op,
      AtomicStructure.holds
        (mutate (AtomicStructure._atoms second) ops h2).2 first
        (list_to_set [carbon; hydrogen; mysterium]).
Proof.
  exact (separate_structures_are_independent lab _ _ lab_atoms lab_atoms).
Defined.

(** X8 at work *)
Lemma an_atom_of_hydrogen :
  ∃ v h',
    AtomicStructure.atom molecule [VStr "H"] [] bench = (inr v, h') ∧
    ((v = VNone ∧ selected bench (VStr "H") members = ∅) ∨
     (v ∈ members ∧ Atom.isinstance bench v = true ∧
      (truth bench (VStr "H") = true → has_element bench (VStr "H") v = true))).
Proof.
  exact (atom_returns_a_selected_atom_or_none bench molecule members (VStr "H")
           bench_holds_molecule I).
Defined.

(** X9 at work *)
Lemma the_atoms_of_carbon :
  ∃ l h' R,
    AtomicStructure.atoms molecule (VStr "C") bench = (inr l, h') ∧
    h' !! l = Some (Atom.OSet R) ∧
    ∀ a, a ∈ R ↔
         a ∈ members ∧ ∃ atom, Atom.get bench a = Some atom ∧ Atom._element atom = "C".
Proof.
  apply (atoms_by_element_is_exact bench molecule members "C" bench_holds_molecule).
  discriminate.
Defined.

(** X10 at work *)
Lemma formula_of_the_molecule :
  ∃ counts,
    AtomicStructure.formula molecule bench = (inr counts, bench) ∧
    ∀ e : string,
      count_of counts e
        = Z.of_nat (size (filter (λ a, has_element bench (VStr e) a) members)) ∧
      (counts !! e = None ↔ ∀ a, a ∈ members → has_element bench (VStr e) a = false).
Proof.
  exact (formula_counts_atoms_by_element bench molecule members bench_holds_molecule).
Defined.

(** X11 at work *)
Lemma formula_of_the_molecule_adds_up :
  ∃ counts,
    AtomicStructure.formula molecule bench = (inr counts, bench) ∧
    sum_values counts = Z.of_nat (size members).
Proof.
  exact (formula_counts_add_up bench molecule members bench_holds_molecule).
Defined.

(** X12 at work *)
Lemma formula_of_the_parts :
  ∃ counts counts1 counts2,
    AtomicStructure.formula molecule shelf = (inr counts, shelf) ∧
    AtomicStructure.formula organic shelf = (inr counts1, shelf) ∧
    AtomicStructure.formula rest shelf = (inr counts2, shelf) ∧
    ∀ e, count_of counts e = count_of counts1 e + count_of counts2 e.
Proof.
  apply (formula_is_additive shelf molecule members organic {[ carbon; hydrogen ]}
           rest {[ mysterium ]} shelf_holds_molecule shelf_holds_organic
           shelf_holds_rest); [reflexivity|].
  apply elem_of_disjoint. intros a Ha ->%elem_of_singleton.
  by apply mysterium_is_no_organic.
Defined.

(** X13 at work: a translation by (1, 2, 3) on the grid. *)
Lemma molecule_translated :
  ∃ h',
    AtomicStructure.translate molecule 1 2 3 bench = (inr tt, h') ∧
    AtomicStructure.holds h' molecule members ∧
    (∀ a atom, a ∈ members → Atom.get bench a = Some atom →
       Atom.get h' a
       = Some (placed atom ((λ '(x, y, z), (x + 1, y + 2, z + 3))
                              (Atom.location_of atom)))) ∧
    (∀ l, VRef l ∉ members → h' !! l = bench !! l).
Proof.
  apply (translate_moves_every_atom bench molecule members 1 2 3
           (λ '(x, y, z), (x + 1, y + 2, z + 3)) bench_holds_molecule).
  reflexivity.
Defined.

(** X14 at work: a quarter turn about [z] on the grid. *)
Lemma molecule_rotated :
  ∃ h',
    AtomicStructure.rotate molecule (VStr "z") 90 bench = (inr tt, h') ∧
    AtomicStructure.holds h' molecule members ∧
    (∀ a atom, a ∈ members → Atom.get bench a = Some atom →
       Atom.get h' a
       = Some (placed atom (quarter_turn (VStr "z") (Atom.location_of atom)))) ∧
    (∀ l, VRef l ∉ members → h' !! l = bench !! l).
Proof.
  apply (rotate_moves_every_atom bench molecule members (VStr "z") 90
           (quarter_turn (VStr "z")) bench_holds_molecule).
  reflexivity.
Defined.

(** X15 at work *)
Lemma molecule_weighs_the_same_translated :
  (AtomicStructure.mass molecule (AtomicStructure.translate molecule 1 2 3 bench).2).1
  = (AtomicStructure.mass molecule bench).1.
Proof.
  apply (transforms_keep_mass_and_formula bench molecule members 1 2 3 (VStr "z") 90
           bench_holds_molecule). by left.
Defined.

(** X16 at work: the [ValueError] of the grid for an axis [w]. *)
Lemma grid_error_passes_through :
  AtomicStructure.rotate molecule (VStr "w") 90 bench
  = (inl (Exn ValueError (VStr "w")), bench).
Proof.
  apply (library_errors_pass_through bench molecule members _
           (Exn ValueError (VStr "w")) 0 0 0 (VStr "w") 90
           bench_holds_molecule bench_cloud).
  reflexivity.
Defined.

(** X17 at work: the library that gives back one point for three atoms. *)
Lemma one_point_for_three_atoms :
  ∃ h',
    @AtomicStructure.translate Z stingy molecule 1 2 3 bench
    = (inl (Exn IndexError (VInt 1)), h') ∧
    ∀ i a atom,
      elements members !! i = Some a → Atom.get bench a = Some atom →
      Atom.get h' a = Some (from_option (placed atom) atom ([(1, 3, 3)] !! i)).
Proof.
  apply (@translate_short_of_points Z stingy bench molecule members _ [(1, 3, 3)]
           1 2 3 bench_holds_molecule bench_cloud eq_refl).
  vm_compute. lia.
Defined.

(** X18 at work *)
Lemma nothing_is_usable :
  AtomicStructure.mass nothing vacant = (inr 0, vacant) ∧
  AtomicStructure.formula nothing vacant = (inr ∅, vacant) ∧
  (∃ h', AtomicStructure.atom nothing [] [] vacant = (inr VNone, h')) ∧
  (∀ member, AtomicStructure.__contains__ nothing member vacant = (inr false, vacant)) ∧
  AtomicStructure.__repr__ nothing vacant = (inr "<AtomicStructure (0 atoms)>", vacant).
Proof. exact (empty_structure_is_usable vacant nothing vacant_holds_nothing). Defined.

(** X19 at work *)
Lemma molecule_and_organic_print_apart :
  ∃ r1 r2,
    AtomicStructure.__repr__ molecule shelf = (inr r1, shelf) ∧
    AtomicStructure.__repr__ organic shelf = (inr r2, shelf) ∧
    (r1 = r2 ↔ size members = size ({[ carbon; hydrogen ]} : gset value)).
Proof.
  exact (repr_tells_the_number_of_atoms shelf molecule members shelf organic _
           shelf_holds_molecule shelf_holds_organic).
Defined.

(** X20 at work: carbon joins the structure of mysterium. *)
Lemma carbon_adds_its_mass :
  ∃ h',
    (AtomicStructure.add_atom rest carbon ;; AtomicStructure.mass rest) shelf
    = (inr (12011 + 0), h').
Proof.
  apply (@mass_follows_membership Z Z_number table Z.add_assoc Z.add_comm Z.add_0_l
           shelf rest {[ mysterium ]} carbon (Atom.Make "C" 0 0 0) 0
           shelf_holds_rest eq_refl).
  - vm_compute. reflexivity.
  - intros Heq%elem_of_singleton. discriminate Heq.
Defined.

End MoreRuns.

(** ** Translating back *)

Section RoundTrip.
Context {num : Type} `{!Number num, !Geometrica num}.
Implicit Types (h : heap num) (S : gset value).

Lemma location_placed (atom : Atom.t num) (p : point num) :
  Atom.location_of (placed atom p) = p.
Proof. by destruct p as [[x y] z]. Qed.

Lemma placed_twice (atom : Atom.t num) (p q : point num) :
  placed (placed atom p) q = placed atom q.
Proof. reflexivity. Qed.

Lemma placed_at_home (atom : Atom.t num) : placed atom (Atom.location_of atom) = atom.
Proof. by destruct atom. Qed.

Lemma lookup_of_get h (l : loc) (atom : Atom.t num) :
  Atom.get h (VRef l) = Some atom → h !! l = Some (Atom.OAtom atom).
Proof.
  simpl. destruct (h !! l) as [[a|]|]; intros [=]. by subst.
Qed.


End RoundTrip.

(** ** Exact and rounded arithmetic at work *)

Section ExactRuns.
Import World.

Lemma grid_adds_deltas : @adds_deltas Z Z_number grid.
Proof.
  intros cloud dx dy dz. simpl. f_equal. apply map_ext.
  by intros [[x y] z].
Defined.


End ExactRuns.

Section RoundedRuns.
Import Binary64.
Local Open Scope float_scope.
Set Warnings "-inexact-float".



Set Warnings "inexact-float".

End RoundedRuns.
